(** * mango_saver: a get-or-create cache in front of a document store

    Shallow embedding of [AYESHA/core/mango_saver.py] and the properties of
    its cache-aside logic.

    The Python module talks to three things it does not own: a MongoDB
    server (through Motor), the wall clock and a caller-supplied fetch
    callback.  They are part of an explicit [World] that every coroutine
    threads through; [await] points are taken in program order, so one
    coroutine runs from start to end without interleaving. *)

From stdpp Require Import gmap strings list fin_maps.
From Stdlib Require Import ZArith.

Open Scope string_scope.
Open Scope list_scope.

(** ** Python values *)

(** The values that occur in fetched field sets and in stored documents. *)
Inductive PyVal :=
  | VNone
  | VBool (b : bool)
  | VInt (n : Z)
  | VStr (s : string)
  | VDatetime (t : Z)
  | VObjectId (n : N).

#[global] Instance PyVal_eq_dec : EqDecision PyVal.
Proof. solve_decision. Defined.

(** Python truth value, as used by [if found:] and by [x or y]. *)
Definition truthy (v : PyVal) : bool :=
  match v with
  | VNone => false
  | VBool b => b
  | VInt n => negb (n =? 0)%Z
  | VStr s => match s with EmptyString => false | String _ _ => true end
  | VDatetime _ => true
  | VObjectId _ => true
  end.

(** [a or b] *)
Definition py_or (a b : PyVal) : PyVal := if truthy a then a else b.

(** A [dict] with string keys: fetched field sets and stored documents. *)
Abbreviation Doc := (gmap string PyVal).

(** A dict is true when it is not empty; [None] is false. *)
Definition truthy_doc (d : Doc) : bool := negb (bool_decide (d = ∅)).

Definition truthy_found (found : option Doc) : bool :=
  match found with
  | Some d => truthy_doc d
  | None => false
  end.

(** What a fetch callback may hand back: a dict, or something that has no
    [.get] method. *)
Inductive PyObj :=
  | ODict (d : Doc)
  | OOther (v : PyVal).

(** ** Exceptions and outcomes *)

(** Failures of the server or of the connection, injected by the world. *)
Inductive Fault :=
  | AutoReconnect
  | NetworkTimeout
  | ServerSelectionTimeout
  | WriteError.

Inductive Exn :=
  | LookupError (msg : string)
  | AttributeError
  | DuplicateKeyError
  | OperationFailure
  | StoreFailure (f : Fault)
  | FetcherRaised (msg : string).

Inductive Outcome (A : Type) :=
  | Return (a : A)
  | Raise (e : Exn).
Arguments Return {A} a.
Arguments Raise {A} e.

(** ** The world *)

Inductive CollName := COL_SONGS | COL_VIDEOS.

#[global] Instance CollName_eq_dec : EqDecision CollName.
Proof. solve_decision. Defined.

(** Calls that leave the process, in the order they were made. *)
Inductive Event :=
  | EvFind (c : CollName) (field : string) (v : PyVal)
  | EvInsert (c : CollName) (d : Doc)
  | EvCreateIndex (c : CollName) (field : string) (unique : bool)
  | EvFetch (key : string).

(** A collection: its documents in insertion order and its indexes, each a
    field name with its [unique] flag. *)
Record Collection := {
  docs : list Doc;
  indexes : list (string * bool)
}.

(** The module globals [MONGO_URL], [DB_NAME], [_client], [_db]; the two
    collections of the bound database; the clock read by
    [datetime.utcnow()]; the source of fresh ObjectIds; the failures the
    store will answer the coming calls with (one entry per call, [None] or
    no entry for a call that goes through); and the record of outside
    calls. *)
Record World := {
  MONGO_URL : string;
  DB_NAME : string;
  _client : option string;
  _db : option string;
  mango_songs : Collection;
  mango_videos : Collection;
  clock : Z;
  next_oid : N;
  faults : list (option Fault);
  trace : list Event
}.

Definition coll (c : CollName) (w : World) : Collection :=
  match c with
  | COL_SONGS => mango_songs w
  | COL_VIDEOS => mango_videos w
  end.

Definition set_coll (c : CollName) (x : Collection) (w : World) : World :=
  {| MONGO_URL := MONGO_URL w; DB_NAME := DB_NAME w;
     _client := _client w; _db := _db w;
     mango_songs := match c with COL_SONGS => x | COL_VIDEOS => mango_songs w end;
     mango_videos := match c with COL_SONGS => mango_videos w | COL_VIDEOS => x end;
     clock := clock w; next_oid := next_oid w;
     faults := faults w; trace := trace w |}.

Definition set_globals (url name : string) (cl db : option string) (w : World) : World :=
  {| MONGO_URL := url; DB_NAME := name; _client := cl; _db := db;
     mango_songs := mango_songs w; mango_videos := mango_videos w;
     clock := clock w; next_oid := next_oid w;
     faults := faults w; trace := trace w |}.

Definition set_next_oid (n : N) (w : World) : World :=
  {| MONGO_URL := MONGO_URL w; DB_NAME := DB_NAME w;
     _client := _client w; _db := _db w;
     mango_songs := mango_songs w; mango_videos := mango_videos w;
     clock := clock w; next_oid := n;
     faults := faults w; trace := trace w |}.

Definition set_faults (fs : list (option Fault)) (w : World) : World :=
  {| MONGO_URL := MONGO_URL w; DB_NAME := DB_NAME w;
     _client := _client w; _db := _db w;
     mango_songs := mango_songs w; mango_videos := mango_videos w;
     clock := clock w; next_oid := next_oid w;
     faults := fs; trace := trace w |}.

Definition set_trace (t : list Event) (w : World) : World :=
  {| MONGO_URL := MONGO_URL w; DB_NAME := DB_NAME w;
     _client := _client w; _db := _db w;
     mango_songs := mango_songs w; mango_videos := mango_videos w;
     clock := clock w; next_oid := next_oid w;
     faults := faults w; trace := t |}.

(** ** Coroutines: state and exceptions *)

Definition M (A : Type) : Type := World → Outcome A * World.

#[global] Instance M_ret : MRet M := λ A a w, (Return a, w).

#[global] Instance M_bind : MBind M := λ A B f m w,
  match m w with
  | (Return a, w') => f a w'
  | (Raise e, w') => (Raise e, w')
  end.

Definition raise {A} (e : Exn) : M A := λ w, (Raise e, w).

(** [try: body except Exception: handler] *)
Definition try_except {A} (body : M A) (handler : Exn → M A) : M A := λ w,
  match body w with
  | (Return a, w') => (Return a, w')
  | (Raise e, w') => handler e w'
  end.

Definition result {A} (m : M A) (w : World) : Outcome A := fst (m w).
Definition exec {A} (m : M A) (w : World) : World := snd (m w).

Definition emit (e : Event) : M unit := λ w,
  (Return (), set_trace (trace w ++ [e]) w).

(** One round trip to the server: it fails when the world says so. *)
Definition store_call : M unit := λ w,
  match faults w with
  | Some f :: fs => (Raise (StoreFailure f), set_faults fs w)
  | None :: fs => (Return (), set_faults fs w)
  | [] => (Return (), w)
  end.

Definition get_world : M World := λ w, (Return w, w).
Definition put_world (w' : World) : M unit := λ _, (Return (), w').

(** [datetime.utcnow()] *)
Definition utcnow : M Z := λ w, (Return (clock w), w).

(** ** The document store *)

(** The value a filter or an index sees in a field: a missing field reads
    as null. *)
Definition field_of (d : Doc) (field : string) : PyVal :=
  default VNone (d !! field).

(** The filter [{field: v}] *)
Definition matches (field : string) (v : PyVal) (d : Doc) : bool :=
  bool_decide (field_of d field = v).

(** [coll.find_one({field: v})]: the first document that matches, or
    [None]. *)
Definition find_one (c : CollName) (field : string) (v : PyVal) : M (option Doc) :=
  emit (EvFind c field v);;
  store_call;;
  w ← get_world;
  mret (List.find (matches field v) (docs (coll c w))).

(** The document clashes with a stored one on a field that has a unique
    index. *)
Definition violates_unique (doc : Doc) (c : Collection) : bool :=
  existsb (λ ix : string * bool,
             ix.2 && existsb (λ d, bool_decide (field_of d ix.1 = field_of doc ix.1)) (docs c))
          (indexes c).

(** [coll.insert_one(doc)]: the document gets an [_id] when it has none,
    is refused when a unique index forbids it, and is appended otherwise.
    The result is [res.inserted_id]. *)
Definition insert_one (c : CollName) (doc : Doc) : M PyVal :=
  emit (EvInsert c doc);;
  store_call;;
  w ← get_world;
  let doc' := match doc !! "_id" with
              | Some _ => doc
              | None => <["_id" := VObjectId (next_oid w)]> doc
              end in
  put_world (set_next_oid (N.succ (next_oid w)) w);;
  if violates_unique doc' (coll c w)
  then raise DuplicateKeyError
  else
    w1 ← get_world;
    put_world (set_coll c {| docs := docs (coll c w1) ++ [doc'];
                             indexes := indexes (coll c w1) |} w1);;
    mret (field_of doc' "_id").

Definition has_duplicates (field : string) (ds : list Doc) : bool :=
  negb (bool_decide (NoDup (map (λ d, field_of d field) ds))).

(** [coll.create_index(field, unique=...)]: nothing to do when the index is
    there, refused when it is there with the other flag or when the stored
    documents already break the uniqueness asked for. *)
Definition create_index (c : CollName) (field : string) (unique : bool) : M unit :=
  emit (EvCreateIndex c field unique);;
  store_call;;
  w ← get_world;
  let cl := coll c w in
  match List.find (λ ix : string * bool, bool_decide (ix.1 = field)) (indexes cl) with
  | Some ix =>
      if bool_decide (ix.2 = unique) then mret ()
      else raise OperationFailure
  | None =>
      if unique && has_duplicates field (docs cl)
      then raise DuplicateKeyError
      else put_world (set_coll c {| docs := docs cl;
                                    indexes := indexes cl ++ [(field, unique)] |} w)
  end.

(** ** The module *)

Definition _ensure_client : M unit := λ w,
  match _client w with
  | None =>
      (Return (),
       set_globals (MONGO_URL w) (DB_NAME w) (Some (MONGO_URL w)) (Some (DB_NAME w)) w)
  | Some _ => (Return (), w)
  end.

(** Truth value of an [Optional[str]] argument. *)
Definition truthy_arg (a : option string) : bool :=
  match a with
  | Some s => truthy (VStr s)
  | None => false
  end.

Definition init_db (mongo_url db_name : option string) : M unit :=
  w ← get_world;
  put_world (set_globals
               (if truthy_arg mongo_url then default "" mongo_url else MONGO_URL w)
               (if truthy_arg db_name then default "" db_name else DB_NAME w)
               (_client w) (_db w) w);;
  _ensure_client;;
  create_index COL_SONGS "youtube_id" true;;
  create_index COL_VIDEOS "video_id" true;;
  create_index COL_SONGS "title" false;;
  create_index COL_VIDEOS "title" false.

(** The dict literal of [save_song]. *)
Definition song_doc (youtube_id title thumbnail singer : PyVal) (now : Z) : Doc :=
  <["youtube_id" := youtube_id]> (
  <["title" := title]> (
  <["thumbnail" := thumbnail]> (
  <["singer" := singer]> (
  <["type" := VStr "song"]> (
  <["saved_at" := VDatetime now]> ∅))))).

Definition save_song (youtube_id title thumbnail singer : PyVal) : M (option Doc) :=
  _ensure_client;;
  now ← utcnow;
  let doc := song_doc youtube_id title thumbnail singer now in
  try_except
    (res ← insert_one COL_SONGS doc;
     mret (Some (<["_id" := res]> doc)))
    (λ _, find_one COL_SONGS "youtube_id" youtube_id).

(** The dict literal of [save_video]. *)
Definition video_doc (video_id title thumbnail singer url : PyVal) (now : Z) : Doc :=
  <["video_id" := video_id]> (
  <["title" := title]> (
  <["thumbnail" := thumbnail]> (
  <["singer" := singer]> (
  <["url" := url]> (
  <["type" := VStr "video"]> (
  <["saved_at" := VDatetime now]> ∅)))))).

Definition save_video (video_id title thumbnail singer url : PyVal) : M (option Doc) :=
  _ensure_client;;
  now ← utcnow;
  let doc := video_doc video_id title thumbnail singer url now in
  try_except
    (res ← insert_one COL_VIDEOS doc;
     mret (Some (<["_id" := res]> doc)))
    (λ _, find_one COL_VIDEOS "video_id" video_id).

Definition get_song_by_youtube_id (youtube_id : string) : M (option Doc) :=
  _ensure_client;;
  find_one COL_SONGS "youtube_id" (VStr youtube_id).

Definition get_video_by_video_id (video_id : string) : M (option Doc) :=
  _ensure_client;;
  find_one COL_VIDEOS "video_id" (VStr video_id).

(** A fetch callback: what it returns or raises for an id. *)
Definition Fetcher := string → Outcome PyObj.

(** [await fetch_if_missing(key)] *)
Definition call_fetcher (fetch : Fetcher) (key : string) : M PyObj :=
  emit (EvFetch key);;
  match fetch key with
  | Return fetched => mret fetched
  | Raise e => raise e
  end.

(** [fetched.get(key, dflt)]: only a dict has the method. *)
Definition dict_get (fetched : PyObj) (key : string) (dflt : PyVal) : M PyVal :=
  match fetched with
  | ODict d => mret (default dflt (d !! key))
  | OOther _ => raise AttributeError
  end.

Definition get_track_by_youtube_id (youtube_id : string)
    (fetch_if_missing : option Fetcher) : M (option Doc) :=
  found ← get_song_by_youtube_id youtube_id;
  if truthy_found found then mret found
  else match fetch_if_missing with
  | None => raise (LookupError "Song not found in DB and no fetch_if_missing provided")
  | Some fetch =>
      fetched ← call_fetcher fetch youtube_id;
      raw_id ← dict_get fetched "youtube_id" VNone;
      let yid := py_or raw_id (VStr youtube_id) in
      title ← dict_get fetched "title" (VStr "Unknown Title");
      thumbnail ← dict_get fetched "thumbnail" (VStr "");
      artist ← dict_get fetched "artist" (VStr "Unknown");
      singer ← dict_get fetched "singer" artist;
      save_song yid title thumbnail singer
  end.

Definition get_video_by_id_with_cache (video_id : string)
    (fetch_if_missing : option Fetcher) : M (option Doc) :=
  found ← get_video_by_video_id video_id;
  if truthy_found found then mret found
  else match fetch_if_missing with
  | None => raise (LookupError "Video not found in DB and no fetch_if_missing provided")
  | Some fetch =>
      fetched ← call_fetcher fetch video_id;
      raw_id ← dict_get fetched "video_id" VNone;
      let vid := py_or raw_id (VStr video_id) in
      title ← dict_get fetched "title" (VStr "Unknown Title");
      thumbnail ← dict_get fetched "thumbnail" (VStr "");
      artist ← dict_get fetched "artist" (VStr "Unknown");
      singer ← dict_get fetched "singer" artist;
      url ← dict_get fetched "url" (VStr "");
      save_video vid title thumbnail singer url
  end.

Definition example_integration (youtube_id : string) (is_video : bool)
    (fetch_cb : Fetcher) : M (option Doc) :=
  if is_video
  then get_video_by_id_with_cache youtube_id (Some fetch_cb)
  else get_track_by_youtube_id youtube_id (Some fetch_cb).

(** ** Sequences of calls *)

Inductive Op :=
  | OpInitDb (mongo_url db_name : option string)
  | OpSaveSong (youtube_id title thumbnail singer : PyVal)
  | OpSaveVideo (video_id title thumbnail singer url : PyVal)
  | OpGetSong (youtube_id : string)
  | OpGetVideo (video_id : string)
  | OpGetTrack (youtube_id : string) (fetch_if_missing : option Fetcher)
  | OpGetVideoCached (video_id : string) (fetch_if_missing : option Fetcher)
  | OpExample (youtube_id : string) (is_video : bool) (fetch_cb : Fetcher).

(** The world after one call, whether it returned or raised. *)
Definition run_op (o : Op) (w : World) : World :=
  match o with
  | OpInitDb u n => exec (init_db u n) w
  | OpSaveSong y t th s => exec (save_song y t th s) w
  | OpSaveVideo v t th s u => exec (save_video v t th s u) w
  | OpGetSong k => exec (get_song_by_youtube_id k) w
  | OpGetVideo k => exec (get_video_by_video_id k) w
  | OpGetTrack k f => exec (get_track_by_youtube_id k f) w
  | OpGetVideoCached k f => exec (get_video_by_id_with_cache k f) w
  | OpExample k v f => exec (example_integration k v f) w
  end.

Definition run_ops (ops : list Op) (w : World) : World :=
  fold_left (λ w o, run_op o w) ops w.

(** ** Test worlds *)

Definition empty_coll : Collection := {| docs := []; indexes := [] |}.

(** A fresh process in front of an empty database. *)
Definition fresh_world : World :=
  {| MONGO_URL := "mongodb://localhost:27017"; DB_NAME := "mango_tv_db";
     _client := None; _db := None;
     mango_songs := empty_coll; mango_videos := empty_coll;
     clock := 1000; next_oid := 1; faults := []; trace := [] |}.

(** ** Observations used in the statements *)

(** What [find_one] answers when the call goes through. *)
Definition lookup_doc (c : CollName) (field : string) (v : PyVal) (w : World) : option Doc :=
  List.find (matches field v) (docs (coll c w)).

(** The [n]-th coming round trip to the store goes through. *)
Definition call_ok (n : nat) (w : World) : Prop :=
  default None (faults w !! n) = None.

(** The outside calls made between two worlds. *)
Definition since (w w' : World) : list Event :=
  drop (length (trace w)) (trace w').

(** Keys the fetch callback was called with. *)
Definition fetches (t : list Event) : list string :=
  omap (λ e, match e with EvFetch k => Some k | _ => None end) t.

(** Documents handed to [insert_one] of a collection. *)
Definition inserts (c : CollName) (t : list Event) : list Doc :=
  omap (λ e, match e with
             | EvInsert c' d => if bool_decide (c' = c) then Some d else None
             | _ => None
             end) t.

(** The world in which the save starts after a miss: the lookup and the
    call of the callback have been made. *)
Definition after_song_miss (k : string) (fetch : Fetcher) (w : World) : World :=
  exec (call_fetcher fetch k) (exec (get_song_by_youtube_id k) w).

Definition after_video_miss (k : string) (fetch : Fetcher) (w : World) : World :=
  exec (call_fetcher fetch k) (exec (get_video_by_video_id k) w).

Definition typed_as (ty : string) (d : Doc) : Prop :=
  d !! "type" = Some (VStr ty).

(** The type literal of the collection a document goes to. *)
Definition type_of_coll (c : CollName) : string :=
  match c with
  | COL_SONGS => "song"
  | COL_VIDEOS => "video"
  end.

Definition insert_typed (e : Event) : Prop :=
  match e with
  | EvInsert c d => typed_as (type_of_coll c) d
  | _ => True
  end.

(** From [w] to [w'] the collections only gained documents at the end, all
    of the collection's type, and every document handed to [insert_one] in
    between had the type of its collection. *)
Definition grows (w w' : World) : Prop :=
  (∀ c, ∃ new, docs (coll c w') = docs (coll c w) ++ new
               ∧ Forall (typed_as (type_of_coll c)) new)
  ∧ (∃ evs, trace w' = trace w ++ evs ∧ Forall insert_typed evs).

(** A coroutine that, from any world, only lets the store grow. *)
Definition keeps {A} (m : M A) : Prop := ∀ w, grows w (exec m w).

(** ** Test fixtures *)

(** A world with one stored song and one stored video. *)
Definition stored_song : Doc :=
  <["_id" := VObjectId 7]> (song_doc (VStr "abc123") (VStr "Song A") (VStr "")
                                     (VStr "Artist X") 900).

Definition stored_video : Doc :=
  <["_id" := VObjectId 8]> (video_doc (VStr "vid456") (VStr "Video B") (VStr "")
                                      (VStr "Artist Y") (VStr "http://v/456") 950).

Definition stocked_world : World :=
  {| MONGO_URL := "mongodb://localhost:27017"; DB_NAME := "mango_tv_db";
     _client := Some "mongodb://localhost:27017"; _db := Some "mango_tv_db";
     mango_songs := {| docs := [stored_song];
                       indexes := [("youtube_id", true); ("title", false)] |};
     mango_videos := {| docs := [stored_video];
                        indexes := [("video_id", true); ("title", false)] |};
     clock := 1000; next_oid := 9; faults := []; trace := [] |}.

(** A callback that answers every id with title and artist only. *)
Definition fetch_song_a : Fetcher :=
  λ _, Return (ODict (<["title" := VStr "Song A"]> (<["artist" := VStr "Artist X"]> ∅))).

(** A callback whose answer has the key fields present but false: an empty
    [youtube_id] and a zero [video_id]. *)
Definition fetch_blank_key : Fetcher :=
  λ _, Return (ODict (<["youtube_id" := VStr ""]> (<["video_id" := VInt 0]> ∅))).

(** A callback whose answer names its own keys, and both singer and
    artist. *)
Definition fetch_full : Fetcher :=
  λ _, Return (ODict (<["youtube_id" := VStr "xyz789"]> (
                      <["video_id" := VStr "vid456"]> (
                      <["singer" := VStr "Singer S"]> (
                      <["artist" := VStr "Artist X"]> ∅))))).

(** A callback that returns [None], and one that raises. *)
Definition fetch_none : Fetcher := λ _, Return (OOther VNone).
Definition fetch_down : Fetcher := λ _, Raise (FetcherRaised "source unreachable").

(** A store that fails the coming call, and one that answers the coming
    call and fails the one after. *)
Definition failing_world : World := set_faults [Some NetworkTimeout] fresh_world.
Definition failing_insert_after_miss : World :=
  set_faults [None; Some NetworkTimeout] fresh_world.

(** A session: indexes are set up, an existing song and video are saved
    again, a new song is fetched, an existing one is asked for. *)
Definition session : list Op :=
  [ OpInitDb None (Some "mango_tv_db");
    OpSaveSong (VStr "abc123") (VStr "Other title") (VStr "") (VStr "Other");
    OpSaveVideo (VStr "vid456") (VStr "Other title") (VStr "") (VStr "Other") (VStr "");
    OpGetTrack "new001" (Some fetch_song_a);
    OpExample "abc123" false fetch_full;
    OpGetVideoCached "vid456" None ].

(** ** Further observations and fixtures *)

(** A property of worlds that every run of the coroutine carries over. *)
Definition preserves (I : World → Prop) {A} (m : M A) : Prop :=
  ∀ w, I w → I (exec m w).

(** The collection has a unique index on the field and no two of its
    documents agree on it. *)
Definition keys_unique (c : CollName) (field : string) (w : World) : Prop :=
  (field, true) ∈ indexes (coll c w)
  ∧ NoDup (map (λ d, field_of d field) (docs (coll c w))).

(** The document as [insert_one] stores it. *)
Definition with_id (doc : Doc) (w : World) : Doc :=
  match doc !! "_id" with
  | Some _ => doc
  | None => <["_id" := VObjectId (next_oid w)]> doc
  end.

(** A database that holds the song and the video of [stocked_world] but has
    no index yet. *)
Definition unindexed_world : World :=
  {| MONGO_URL := "mongodb://localhost:27017"; DB_NAME := "mango_tv_db";
     _client := None; _db := None;
     mango_songs := {| docs := [stored_song]; indexes := [] |};
     mango_videos := {| docs := [stored_video]; indexes := [] |};
     clock := 1000; next_oid := 9; faults := []; trace := [] |}.


(** The flag of the index the store has on a field, if it has one. *)
Definition index_flag (c : CollName) (field : string) (w : World) : option bool :=
  snd <$> List.find (λ ix : string * bool, bool_decide (ix.1 = field))
                    (indexes (coll c w)).

(** The four [create_index] calls of [init_db]. *)
Definition index_setup : M unit :=
  create_index COL_SONGS "youtube_id" true;;
  create_index COL_VIDEOS "video_id" true;;
  create_index COL_SONGS "title" false;;
  create_index COL_VIDEOS "title" false.

(** The world in which [init_db] starts creating indexes: the overrides
    are in the globals and the client exists. *)
Definition init_db_prepared (mongo_url db_name : option string) (w : World) : World :=
  exec _ensure_client
    (set_globals (if truthy_arg mongo_url then default "" mongo_url else MONGO_URL w)
                 (if truthy_arg db_name then default "" db_name else DB_NAME w)
                 (_client w) (_db w) w).

(** No failure of the store is scheduled. *)
Definition healthy (w : World) : Prop := ∀ n, call_ok n w.

(** A database without indexes that holds the same song twice. *)
Definition duplicated_world : World :=
  {| MONGO_URL := "mongodb://localhost:27017"; DB_NAME := "mango_tv_db";
     _client := None; _db := None;
     mango_songs := {| docs := [stored_song; stored_song]; indexes := [] |};
     mango_videos := empty_coll;
     clock := 1000; next_oid := 9; faults := []; trace := [] |}.

(** A store that fails the two coming calls, each in its own way. *)
Definition failing_twice : World :=
  set_faults [Some WriteError; Some NetworkTimeout] fresh_world.

(** ** Running the module on a symbolic world *)

(** Unfolds the coroutines down to the store, leaving dict and list
    operations alone. *)
Ltac run_module :=
  cbv beta iota zeta delta
      [result exec lookup_doc call_ok truthy_found
       get_track_by_youtube_id get_video_by_id_with_cache
       get_song_by_youtube_id get_video_by_video_id save_song save_video
       example_integration init_db _ensure_client call_fetcher dict_get
       find_one insert_one create_index emit store_call utcnow
       get_world put_world raise try_except
       mbind M_bind mret M_ret fst snd coll
       set_coll set_globals set_next_oid set_faults set_trace
       MONGO_URL DB_NAME _client _db mango_songs mango_videos
       clock next_oid faults trace docs indexes] in *.

(** Splits on whether the client exists and on what the store answers to
    the next call. *)
Ltac open_world w :=
  let cl := fresh "cl" in
  let fs := fresh "fs" in
  let f := fresh "f" in
  destruct w as [? ? cl ? ? ? ? ? fs ?];
  destruct cl; destruct fs as [|[f|] fs]; run_module.

(** Goes on through the later store calls and through the tests met on the
    way. *)
Ltac run_on :=
  repeat match goal with
         | |- context [match ?fs with [] => _ | _ :: _ => _ end] =>
             is_var fs; destruct fs as [|[?|] ?]; run_module
         | |- context [if ?b then _ else _] => destruct b eqn:?; run_module
         end.

Lemma since_app (w w' : World) (evs : list Event) :
  trace w' = trace w ++ evs → since w w' = evs.
Proof. unfold since. intros ->. apply drop_app_length. Qed.

Lemma find_matches (field : string) (v : PyVal) (l : list Doc) (d : Doc) :
  List.find (matches field v) l = Some d → d ∈ l ∧ field_of d field = v.
Proof.
  intros H. apply find_some in H as [Hin Hm]. split.
  - by apply list_elem_of_In.
  - unfold matches in Hm. by apply bool_decide_eq_true in Hm.
Qed.

Lemma find_no_match (field : string) (v : PyVal) (l : list Doc) :
  (∀ d, d ∈ l → field_of d field ≠ v) → List.find (matches field v) l = None.
Proof.
  intros H. destruct (List.find (matches field v) l) as [d|] eqn:E; [|done].
  apply find_matches in E as [Hin Hf]. by destruct (H d Hin).
Qed.

(** A document found under a string key is a non-empty dict. *)
Lemma found_is_truthy (field k : string) (l : list Doc) (d : Doc) :
  List.find (matches field (VStr k)) l = Some d → truthy_found (Some d) = true.
Proof.
  intros H. apply find_matches in H as [_ Hf].
  unfold truthy_found, truthy_doc. apply negb_true_iff, bool_decide_eq_false.
  intros ->. unfold field_of in Hf. by rewrite lookup_empty in Hf.
Qed.

(** ** Cache hits *)

(** C1. When the store holds a record under the key and answers the lookup,
    [get_track_by_youtube_id] and [get_video_by_id_with_cache] return that
    record as it is stored, leave both collections as they were and make no
    outside call but the lookup: the fetch callback, whatever it is, is
    not called. *)
Theorem get_or_fetch_hit (w : World) (k : string) (fetch : option Fetcher) (d : Doc) :
  call_ok 0 w →
  (lookup_doc COL_SONGS "youtube_id" (VStr k) w = Some d →
     let w' := exec (get_track_by_youtube_id k fetch) w in
     result (get_track_by_youtube_id k fetch) w = Return (Some d)
     ∧ d ∈ docs (mango_songs w)
     ∧ since w w' = [EvFind COL_SONGS "youtube_id" (VStr k)]
     ∧ fetches (since w w') = []
     ∧ mango_songs w' = mango_songs w ∧ mango_videos w' = mango_videos w)
  ∧
  (lookup_doc COL_VIDEOS "video_id" (VStr k) w = Some d →
     let w' := exec (get_video_by_id_with_cache k fetch) w in
     result (get_video_by_id_with_cache k fetch) w = Return (Some d)
     ∧ d ∈ docs (mango_videos w)
     ∧ since w w' = [EvFind COL_VIDEOS "video_id" (VStr k)]
     ∧ fetches (since w w') = []
     ∧ mango_songs w' = mango_songs w ∧ mango_videos w' = mango_videos w).
Proof.
  intros Hok. split; intros Hfind w'; subst w';
    pose proof (found_is_truthy _ _ _ _ Hfind) as Htrue;
    pose proof (find_matches _ _ _ _ Hfind) as [Hin _];
    open_world w; try discriminate Hok;
    rewrite Hfind, Htrue; run_module;
    (split; [done|]); (split; [done|]);
    unfold since; run_module; rewrite drop_app_length; done.
Qed.

Lemma get_or_fetch_hit_witness :
  result (get_track_by_youtube_id "abc123" (Some fetch_song_a)) stocked_world
    = Return (Some stored_song)
  ∧ result (get_video_by_id_with_cache "vid456" None) stocked_world
    = Return (Some stored_video).
Proof.
  split.
  - apply (proj1 (get_or_fetch_hit stocked_world "abc123" (Some fetch_song_a)
                    stored_song eq_refl) eq_refl).
  - apply (proj2 (get_or_fetch_hit stocked_world "vid456" None
                    stored_video eq_refl) eq_refl).
Defined.

(** ** Cache misses without a callback *)

(** C4. When no stored record has the key, the lookup is answered and no
    fetch callback is given, both getters raise [LookupError] (the
    not-found error) and leave both collections as they were. *)
Theorem get_without_fetcher_miss (w : World) (k : string) :
  call_ok 0 w →
  ((∀ d, d ∈ docs (mango_songs w) → field_of d "youtube_id" ≠ VStr k) →
     let w' := exec (get_track_by_youtube_id k None) w in
     result (get_track_by_youtube_id k None) w
       = Raise (LookupError "Song not found in DB and no fetch_if_missing provided")
     ∧ mango_songs w' = mango_songs w ∧ mango_videos w' = mango_videos w)
  ∧
  ((∀ d, d ∈ docs (mango_videos w) → field_of d "video_id" ≠ VStr k) →
     let w' := exec (get_video_by_id_with_cache k None) w in
     result (get_video_by_id_with_cache k None) w
       = Raise (LookupError "Video not found in DB and no fetch_if_missing provided")
     ∧ mango_songs w' = mango_songs w ∧ mango_videos w' = mango_videos w).
Proof.
  intros Hok. split; intros Habs w'; subst w';
    apply find_no_match in Habs;
    open_world w; try discriminate Hok;
    rewrite Habs; done.
Qed.

Lemma get_without_fetcher_miss_witness :
  result (get_track_by_youtube_id "zzz" None) stocked_world
    = Raise (LookupError "Song not found in DB and no fetch_if_missing provided")
  ∧ result (get_video_by_id_with_cache "zzz" None) stocked_world
    = Raise (LookupError "Video not found in DB and no fetch_if_missing provided").
Proof.
  split.
  - apply (proj1 (get_without_fetcher_miss stocked_world "zzz" eq_refl)).
    intros d Hd. apply list_elem_of_singleton in Hd as ->. by vm_compute.
  - apply (proj2 (get_without_fetcher_miss stocked_world "zzz" eq_refl)).
    intros d Hd. apply list_elem_of_singleton in Hd as ->. by vm_compute.
Defined.

(** ** Cache misses with a callback *)

(** On a miss answered by a dict, the getter is the save of the normalized
    fields. *)
Lemma get_track_miss (w : World) (k : string) (fetch : Fetcher) (d : Doc) :
  call_ok 0 w →
  lookup_doc COL_SONGS "youtube_id" (VStr k) w = None →
  fetch k = Return (ODict d) →
  get_track_by_youtube_id k (Some fetch) w
  = save_song (py_or (default VNone (d !! "youtube_id")) (VStr k))
              (default (VStr "Unknown Title") (d !! "title"))
              (default (VStr "") (d !! "thumbnail"))
              (default (default (VStr "Unknown") (d !! "artist")) (d !! "singer"))
              (after_song_miss k fetch w).
Proof.
  intros Hok Habs Hfetch. unfold after_song_miss.
  open_world w; try discriminate Hok; rewrite Habs, Hfetch; reflexivity.
Qed.

Lemma get_video_miss (w : World) (k : string) (fetch : Fetcher) (d : Doc) :
  call_ok 0 w →
  lookup_doc COL_VIDEOS "video_id" (VStr k) w = None →
  fetch k = Return (ODict d) →
  get_video_by_id_with_cache k (Some fetch) w
  = save_video (py_or (default VNone (d !! "video_id")) (VStr k))
               (default (VStr "Unknown Title") (d !! "title"))
               (default (VStr "") (d !! "thumbnail"))
               (default (default (VStr "Unknown") (d !! "artist")) (d !! "singer"))
               (default (VStr "") (d !! "url"))
               (after_video_miss k fetch w).
Proof.
  intros Hok Habs Hfetch. unfold after_video_miss.
  open_world w; try discriminate Hok; rewrite Habs, Hfetch; reflexivity.
Qed.

Lemma after_song_miss_trace (w : World) (k : string) (fetch : Fetcher) :
  call_ok 0 w →
  trace (after_song_miss k fetch w)
  = trace w ++ [EvFind COL_SONGS "youtube_id" (VStr k); EvFetch k]
  ∧ clock (after_song_miss k fetch w) = clock w.
Proof.
  intros Hok. unfold after_song_miss.
  open_world w; try discriminate Hok;
    destruct (fetch k); run_module; by rewrite <- app_assoc.
Qed.

Lemma after_video_miss_trace (w : World) (k : string) (fetch : Fetcher) :
  call_ok 0 w →
  trace (after_video_miss k fetch w)
  = trace w ++ [EvFind COL_VIDEOS "video_id" (VStr k); EvFetch k]
  ∧ clock (after_video_miss k fetch w) = clock w.
Proof.
  intros Hok. unfold after_video_miss.
  open_world w; try discriminate Hok;
    destruct (fetch k); run_module; by rewrite <- app_assoc.
Qed.

(** Every save hands exactly one document to [insert_one], the dict literal
    built from its arguments and the clock; whatever call follows is the
    re-read. *)
Lemma save_song_trace (w : World) (yid title thumbnail singer : PyVal) :
  ∃ tl, trace (exec (save_song yid title thumbnail singer) w)
        = trace w ++ EvInsert COL_SONGS (song_doc yid title thumbnail singer (clock w)) :: tl
        ∧ (tl = [] ∨ tl = [EvFind COL_SONGS "youtube_id" yid]).
Proof.
  open_world w; run_on;
    (eexists; split; [rewrite <- ?app_assoc; reflexivity | auto]).
Qed.

Lemma save_video_trace (w : World) (vid title thumbnail singer url : PyVal) :
  ∃ tl, trace (exec (save_video vid title thumbnail singer url) w)
        = trace w ++ EvInsert COL_VIDEOS (video_doc vid title thumbnail singer url (clock w)) :: tl
        ∧ (tl = [] ∨ tl = [EvFind COL_VIDEOS "video_id" vid]).
Proof.
  open_world w; run_on;
    (eexists; split; [rewrite <- ?app_assoc; reflexivity | auto]).
Qed.

(** On a miss answered by a dict, one document is handed to the store: the
    song literal of the normalized fields, stamped with the clock. *)
Lemma song_miss_inserts (w : World) (k : string) (fetch : Fetcher) (d : Doc) :
  call_ok 0 w →
  lookup_doc COL_SONGS "youtube_id" (VStr k) w = None →
  fetch k = Return (ODict d) →
  inserts COL_SONGS (since w (exec (get_track_by_youtube_id k (Some fetch)) w))
  = [song_doc (py_or (default VNone (d !! "youtube_id")) (VStr k))
              (default (VStr "Unknown Title") (d !! "title"))
              (default (VStr "") (d !! "thumbnail"))
              (default (default (VStr "Unknown") (d !! "artist")) (d !! "singer"))
              (clock w)].
Proof.
  intros Hok Habs Hfetch. unfold exec.
  rewrite (get_track_miss w k fetch d Hok Habs Hfetch).
  destruct (after_song_miss_trace w k fetch Hok) as [Htr Hclk].
  edestruct save_song_trace as (tl & Hsave & Htl). unfold exec in Hsave.
  erewrite since_app; last by rewrite Hsave, Htr, Hclk, <- app_assoc.
  by destruct Htl as [-> | ->].
Qed.

Lemma video_miss_inserts (w : World) (k : string) (fetch : Fetcher) (d : Doc) :
  call_ok 0 w →
  lookup_doc COL_VIDEOS "video_id" (VStr k) w = None →
  fetch k = Return (ODict d) →
  inserts COL_VIDEOS (since w (exec (get_video_by_id_with_cache k (Some fetch)) w))
  = [video_doc (py_or (default VNone (d !! "video_id")) (VStr k))
               (default (VStr "Unknown Title") (d !! "title"))
               (default (VStr "") (d !! "thumbnail"))
               (default (default (VStr "Unknown") (d !! "artist")) (d !! "singer"))
               (default (VStr "") (d !! "url"))
               (clock w)].
Proof.
  intros Hok Habs Hfetch. unfold exec.
  rewrite (get_video_miss w k fetch d Hok Habs Hfetch).
  destruct (after_video_miss_trace w k fetch Hok) as [Htr Hclk].
  edestruct save_video_trace as (tl & Hsave & Htl). unfold exec in Hsave.
  erewrite since_app; last by rewrite Hsave, Htr, Hclk, <- app_assoc.
  by destruct Htl as [-> | ->].
Qed.

(** C5. When no stored song has the key, the lookup is answered and the
    callback returns the empty dict, the one document handed to the store
    has the input key as [youtube_id], title "Unknown Title", an empty
    thumbnail, singer "Unknown" and type "song" (and the clock value as
    [saved_at]). *)
Theorem empty_fetch_defaults (w : World) (k : string) (fetch : Fetcher) :
  call_ok 0 w →
  (∀ d, d ∈ docs (mango_songs w) → field_of d "youtube_id" ≠ VStr k) →
  fetch k = Return (ODict ∅) →
  inserts COL_SONGS (since w (exec (get_track_by_youtube_id k (Some fetch)) w))
  = [ <["youtube_id" := VStr k]> (
      <["title" := VStr "Unknown Title"]> (
      <["thumbnail" := VStr ""]> (
      <["singer" := VStr "Unknown"]> (
      <["type" := VStr "song"]> (
      <["saved_at" := VDatetime (clock w)]> ∅))))) ].
Proof.
  intros Hok Habs Hfetch. apply find_no_match in Habs.
  rewrite (song_miss_inserts w k fetch ∅ Hok Habs Hfetch).
  by rewrite !lookup_empty.
Qed.

Lemma empty_fetch_defaults_witness :
  inserts COL_SONGS
    (since fresh_world
       (exec (get_track_by_youtube_id "abc123" (Some (λ _, Return (ODict ∅))))
             fresh_world))
  = [ <["youtube_id" := VStr "abc123"]> (
      <["title" := VStr "Unknown Title"]> (
      <["thumbnail" := VStr ""]> (
      <["singer" := VStr "Unknown"]> (
      <["type" := VStr "song"]> (
      <["saved_at" := VDatetime 1000]> ∅))))) ].
Proof.
  apply (empty_fetch_defaults fresh_world "abc123" (λ _, Return (ODict ∅)) eq_refl).
  - intros d Hd. by apply elem_of_nil in Hd.
  - reflexivity.
Defined.

(** ** Normalization of the key *)

(** The claim of C6 fails at the empty string: the callback answers
    ["abc123"] with [{"youtube_id": ""}], so the key field is present in the
    raw result with the value [""], yet the document handed to the store, and the one stored,
    carry the input key ["abc123"] and not the raw value. *)
Lemma empty_raw_key_falls_back :
  fetch_blank_key "abc123"
    = Return (ODict (<["youtube_id" := VStr ""]> (<["video_id" := VInt 0]> ∅)))
  ∧ (λ doc, field_of doc "youtube_id")
      <$> inserts COL_SONGS
            (since fresh_world
               (exec (get_track_by_youtube_id "abc123" (Some fetch_blank_key)) fresh_world))
    = [VStr "abc123"]
  ∧ (λ doc, field_of doc "youtube_id")
      <$> docs (mango_songs
                  (exec (get_track_by_youtube_id "abc123" (Some fetch_blank_key)) fresh_world))
    = [VStr "abc123"]
  ∧ VStr "abc123" ≠ VStr "".
Proof.
  split; [|split; [|split]]; [reflexivity .. | discriminate].
Qed.

(** C6, amended. On a miss answered by a dict, the key field of the one
    document handed to the store is the raw key field when that field is
    present and true in Python's sense (for a string: not empty); it is the
    input key when the field is absent or present with a false value
    ([None], the empty string, [0], [False]). *)
Theorem normalized_key (w : World) (k : string) (fetch : Fetcher) (d : Doc) :
  call_ok 0 w →
  fetch k = Return (ODict d) →
  (lookup_doc COL_SONGS "youtube_id" (VStr k) w = None →
     ∃ doc,
       inserts COL_SONGS (since w (exec (get_track_by_youtube_id k (Some fetch)) w)) = [doc]
       ∧ doc !! "youtube_id"
         = Some (match d !! "youtube_id" with
                 | Some v => if truthy v then v else VStr k
                 | None => VStr k
                 end))
  ∧
  (lookup_doc COL_VIDEOS "video_id" (VStr k) w = None →
     ∃ doc,
       inserts COL_VIDEOS (since w (exec (get_video_by_id_with_cache k (Some fetch)) w)) = [doc]
       ∧ doc !! "video_id"
         = Some (match d !! "video_id" with
                 | Some v => if truthy v then v else VStr k
                 | None => VStr k
                 end)).
Proof.
  intros Hok Hfetch. split; intros Habs; eexists; split.
  - by apply song_miss_inserts.
  - unfold song_doc, py_or. rewrite lookup_insert_eq. by destruct (d !! "youtube_id").
  - by apply video_miss_inserts.
  - unfold video_doc, py_or. rewrite lookup_insert_eq. by destruct (d !! "video_id").
Qed.

Lemma normalized_key_witness :
  (∃ doc,
     inserts COL_SONGS
       (since fresh_world
          (exec (get_track_by_youtube_id "abc123" (Some fetch_full)) fresh_world))
     = [doc]
     ∧ doc !! "youtube_id" = Some (VStr "xyz789"))
  ∧
  (∃ doc,
     inserts COL_VIDEOS
       (since fresh_world
          (exec (get_video_by_id_with_cache "abc123" (Some fetch_blank_key)) fresh_world))
     = [doc]
     ∧ doc !! "video_id" = Some (VStr "abc123")).
Proof.
  split.
  - apply (proj1 (normalized_key fresh_world "abc123" fetch_full _ eq_refl eq_refl) eq_refl).
  - apply (proj2 (normalized_key fresh_world "abc123" fetch_blank_key _ eq_refl eq_refl)
             eq_refl).
Defined.

(** ** Normalization of the singer *)

(** C7. On a miss answered by a dict, the singer of the one document handed
    to the store is the raw "singer" when that key is present, else the raw
    "artist" when that key is present, else "Unknown".  In particular, on
    an empty store, key "abc123" and a callback that returns
    [{"title": "Song A", "artist": "Artist X"}], the document handed to the
    store is [{youtube_id: "abc123", title: "Song A", thumbnail: "",
    singer: "Artist X", type: "song", saved_at: now}], and the collection
    then holds that document with the store's [_id]. *)
Theorem normalized_singer :
  (∀ (w : World) (k : string) (fetch : Fetcher) (d : Doc),
     call_ok 0 w →
     fetch k = Return (ODict d) →
     let singer := match d !! "singer" with
                   | Some v => v
                   | None => match d !! "artist" with
                             | Some v => v
                             | None => VStr "Unknown"
                             end
                   end in
     (lookup_doc COL_SONGS "youtube_id" (VStr k) w = None →
        ∃ doc,
          inserts COL_SONGS (since w (exec (get_track_by_youtube_id k (Some fetch)) w)) = [doc]
          ∧ doc !! "singer" = Some singer)
     ∧
     (lookup_doc COL_VIDEOS "video_id" (VStr k) w = None →
        ∃ doc,
          inserts COL_VIDEOS (since w (exec (get_video_by_id_with_cache k (Some fetch)) w)) = [doc]
          ∧ doc !! "singer" = Some singer))
  ∧
  (let record : Doc :=
     <["youtube_id" := VStr "abc123"]> (
     <["title" := VStr "Song A"]> (
     <["thumbnail" := VStr ""]> (
     <["singer" := VStr "Artist X"]> (
     <["type" := VStr "song"]> (
     <["saved_at" := VDatetime (clock fresh_world)]> ∅))))) in
   let w' := exec (get_track_by_youtube_id "abc123" (Some fetch_song_a)) fresh_world in
   inserts COL_SONGS (since fresh_world w') = [record]
   ∧ docs (mango_songs w') = [<["_id" := VObjectId 1]> record]
   ∧ result (get_track_by_youtube_id "abc123" (Some fetch_song_a)) fresh_world
     = Return (Some (<["_id" := VObjectId 1]> record))).
Proof.
  split.
  - intros w k fetch d Hok Hfetch singer. subst singer.
    split; intros Habs; eexists; split.
    + by apply song_miss_inserts.
    + unfold song_doc. simplify_map_eq. by destruct (d !! "singer"), (d !! "artist").
    + by apply video_miss_inserts.
    + unfold video_doc. simplify_map_eq. by destruct (d !! "singer"), (d !! "artist").
  - split; [|split]; reflexivity.
Qed.

Lemma normalized_singer_witness :
  (∃ doc,
     inserts COL_SONGS
       (since fresh_world
          (exec (get_track_by_youtube_id "abc123" (Some fetch_full)) fresh_world))
     = [doc]
     ∧ doc !! "singer" = Some (VStr "Singer S"))
  ∧
  (∃ doc,
     inserts COL_VIDEOS
       (since fresh_world
          (exec (get_video_by_id_with_cache "abc123" (Some fetch_full)) fresh_world))
     = [doc]
     ∧ doc !! "singer" = Some (VStr "Singer S")).
Proof.
  split.
  - apply (proj1 (proj1 normalized_singer fresh_world "abc123" fetch_full _
                    eq_refl eq_refl) eq_refl).
  - apply (proj2 (proj1 normalized_singer fresh_world "abc123" fetch_full _
                    eq_refl eq_refl) eq_refl).
Defined.

(** ** Failed inserts *)

(** A refused insert means that some stored document agrees with the new
    one on a uniquely indexed field. *)
Lemma violates_unique_inv (doc : Doc) (c : Collection) :
  violates_unique doc c = true →
  ∃ field d, (field, true) ∈ indexes c ∧ d ∈ docs c
             ∧ field_of d field = field_of doc field.
Proof.
  unfold violates_unique. intros H.
  apply existsb_exists in H as ([field u] & Hix & H).
  apply andb_true_iff in H as [Hu H]. simpl in Hu. subst u.
  apply existsb_exists in H as (d & Hd & H).
  apply bool_decide_eq_true in H. simpl in H.
  exists field, d. by rewrite !list_elem_of_In.
Qed.

Lemma find_some_match (field : string) (v : PyVal) (l : list Doc) (d : Doc) :
  d ∈ l → field_of d field = v →
  ∃ d', List.find (matches field v) l = Some d'.
Proof.
  intros Hin Hf. destruct (List.find (matches field v) l) as [d'|] eqn:E; [eauto|].
  apply list_elem_of_In in Hin.
  pose proof (find_none _ _ E d Hin) as Hno.
  unfold matches in Hno. apply bool_decide_eq_false in Hno. done.
Qed.

(** What [insert_one] answers does not depend on the client globals, so
    the statements below speak of the insert in the world the save starts
    in. *)
Lemma insert_one_after_ensure_client (c : CollName) (doc : Doc) (w : World) :
  result (insert_one c doc) (exec _ensure_client w) = result (insert_one c doc) w.
Proof. destruct c; open_world w; run_on; reflexivity. Qed.

(** The run of a save whose insert is refused as a duplicate: [Hdup] says
    so, [Hok] that the re-read is answered. *)
Ltac conflict_case w Hdup Hok keyfield key :=
  let Hv := fresh "Hv" in
  let Honly := fresh "Honly" in
  let Hkey := fresh "Hkey" in
  open_world w; try discriminate Hdup;
  match type of Hdup with
  | context [if ?b then _ else _] => destruct b eqn:Hv; try discriminate Hdup
  end;
  try (match goal with
       | fs : list (option Fault) |- _ => destruct fs as [|[?|] ?]; try discriminate Hok
       end);
  run_module;
  (split; [done|]);
  (split; [unfold since; run_module; by rewrite <- app_assoc, drop_app_length|]);
  (split; [done|]); (split; [done|]);
  intros Honly;
  apply violates_unique_inv in Hv as (field & d & Hix & Hd & Hf);
  cbn [docs indexes] in *;
  rewrite (Honly field Hix) in Hf;
  (assert (field_of d keyfield = key) as Hkey
     by (rewrite Hf; unfold field_of, song_doc, video_doc; by simplify_map_eq));
  destruct (find_some_match _ _ _ _ Hd Hkey) as [d' Hd'];
  exists d'; (split; [done|]); by apply find_matches.

(** C3. When [insert_one] answers the document of [save_song] (of
    [save_video]) with a duplicate-key error and the next call to the store
    goes through, the save makes one more call, the lookup by the same key,
    and returns what that lookup finds; the collections are as before.
    When the key is the only uniquely indexed field, as [init_db] leaves
    it, the lookup finds a stored record with that key.  In no world does a
    save raise the duplicate-key error. *)
Theorem save_conflict_rereads :
  (∀ (w : World) (yid title thumbnail singer : PyVal),
     let doc := song_doc yid title thumbnail singer (clock w) in
     let run := save_song yid title thumbnail singer in
     result (insert_one COL_SONGS doc) w = Raise DuplicateKeyError →
     call_ok 1 w →
     result run w = Return (lookup_doc COL_SONGS "youtube_id" yid w)
     ∧ since w (exec run w) = [EvInsert COL_SONGS doc; EvFind COL_SONGS "youtube_id" yid]
     ∧ mango_songs (exec run w) = mango_songs w
     ∧ mango_videos (exec run w) = mango_videos w
     ∧ ((∀ field, (field, true) ∈ indexes (mango_songs w) → field = "youtube_id") →
        ∃ d, lookup_doc COL_SONGS "youtube_id" yid w = Some d
             ∧ d ∈ docs (mango_songs w) ∧ field_of d "youtube_id" = yid))
  ∧
  (∀ (w : World) (vid title thumbnail singer url : PyVal),
     let doc := video_doc vid title thumbnail singer url (clock w) in
     let run := save_video vid title thumbnail singer url in
     result (insert_one COL_VIDEOS doc) w = Raise DuplicateKeyError →
     call_ok 1 w →
     result run w = Return (lookup_doc COL_VIDEOS "video_id" vid w)
     ∧ since w (exec run w) = [EvInsert COL_VIDEOS doc; EvFind COL_VIDEOS "video_id" vid]
     ∧ mango_songs (exec run w) = mango_songs w
     ∧ mango_videos (exec run w) = mango_videos w
     ∧ ((∀ field, (field, true) ∈ indexes (mango_videos w) → field = "video_id") →
        ∃ d, lookup_doc COL_VIDEOS "video_id" vid w = Some d
             ∧ d ∈ docs (mango_videos w) ∧ field_of d "video_id" = vid))
  ∧
  (∀ (w : World) (key title thumbnail singer url : PyVal),
     result (save_song key title thumbnail singer) w ≠ Raise DuplicateKeyError
     ∧ result (save_video key title thumbnail singer url) w ≠ Raise DuplicateKeyError).
Proof.
  split; [|split].
  - intros w yid title thumbnail singer doc run Hdup Hok. subst doc run.
    conflict_case w Hdup Hok "youtube_id" yid.
  - intros w vid title thumbnail singer url doc run Hdup Hok. subst doc run.
    conflict_case w Hdup Hok "video_id" vid.
  - intros w key title thumbnail singer url.
    split; open_world w; run_on; discriminate.
Qed.

Lemma save_conflict_rereads_witness :
  result (save_song (VStr "abc123") (VStr "Other title") (VStr "") (VStr "Other"))
         stocked_world
    = Return (Some stored_song)
  ∧ result (save_video (VStr "vid456") (VStr "Other title") (VStr "") (VStr "Other")
                       (VStr "http://v/other"))
           stocked_world
    = Return (Some stored_video).
Proof.
  split.
  - apply (proj1 save_conflict_rereads stocked_world
             (VStr "abc123") (VStr "Other title") (VStr "") (VStr "Other")).
    + reflexivity.
    + reflexivity.
  - apply (proj1 (proj2 save_conflict_rereads) stocked_world
             (VStr "vid456") (VStr "Other title") (VStr "") (VStr "Other")
             (VStr "http://v/other")).
    + reflexivity.
    + reflexivity.
Defined.

(** C9. When [insert_one] raises, whatever the exception, the re-read is
    answered and finds no record under the key, [save_song] and
    [save_video] return [None].  The getters pass that on: after a miss, if
    the store fails the insert, answers the re-read and has no record under
    the normalized key, they return [None]. *)
Theorem failed_insert_returns_none :
  (∀ (w : World) (yid title thumbnail singer : PyVal) (e : Exn),
     result (insert_one COL_SONGS (song_doc yid title thumbnail singer (clock w))) w
       = Raise e →
     call_ok 1 w →
     lookup_doc COL_SONGS "youtube_id" yid w = None →
     result (save_song yid title thumbnail singer) w = Return None)
  ∧
  (∀ (w : World) (vid title thumbnail singer url : PyVal) (e : Exn),
     result (insert_one COL_VIDEOS (video_doc vid title thumbnail singer url (clock w))) w
       = Raise e →
     call_ok 1 w →
     lookup_doc COL_VIDEOS "video_id" vid w = None →
     result (save_video vid title thumbnail singer url) w = Return None)
  ∧
  (∀ (w : World) (k : string) (fetch : Fetcher) (d : Doc) (f : Fault),
     call_ok 0 w →
     faults w !! 1 = Some (Some f) →
     call_ok 2 w →
     fetch k = Return (ODict d) →
     (lookup_doc COL_SONGS "youtube_id" (VStr k) w = None →
      lookup_doc COL_SONGS "youtube_id"
                 (py_or (default VNone (d !! "youtube_id")) (VStr k)) w = None →
      result (get_track_by_youtube_id k (Some fetch)) w = Return None)
     ∧
     (lookup_doc COL_VIDEOS "video_id" (VStr k) w = None →
      lookup_doc COL_VIDEOS "video_id"
                 (py_or (default VNone (d !! "video_id")) (VStr k)) w = None →
      result (get_video_by_id_with_cache k (Some fetch)) w = Return None)).
Proof.
  split; [|split].
  - intros w yid title thumbnail singer e Hraise Hok Hnone.
    open_world w; run_on; try discriminate Hraise; try discriminate Hok;
      by rewrite Hnone.
  - intros w vid title thumbnail singer url e Hraise Hok Hnone.
    open_world w; run_on; try discriminate Hraise; try discriminate Hok;
      by rewrite Hnone.
  - intros w k fetch d f Hok0 Hf Hok2 Hfetch.
    split; intros Hmiss Hnone;
      open_world w; try discriminate Hok0; try discriminate Hf;
      rewrite Hmiss, Hfetch; run_module;
      (destruct fs as [|[?|] ?]; try discriminate Hf); run_module;
      (destruct fs as [|[?|] ?]; try discriminate Hok2); run_module;
      by rewrite Hnone.
Qed.

Lemma failed_insert_returns_none_witness :
  result (save_song (VStr "abc123") (VStr "Song A") (VStr "") (VStr "Artist X"))
         failing_world = Return None
  ∧ result (save_video (VStr "vid456") (VStr "Video B") (VStr "") (VStr "Artist Y")
                       (VStr "http://v/456"))
           failing_world = Return None
  ∧ result (get_track_by_youtube_id "abc123" (Some fetch_song_a))
           failing_insert_after_miss = Return None
  ∧ result (get_video_by_id_with_cache "vid456" (Some fetch_song_a))
           failing_insert_after_miss = Return None.
Proof.
  split; [|split; [|split]].
  - by apply (proj1 failed_insert_returns_none failing_world
                (VStr "abc123") (VStr "Song A") (VStr "") (VStr "Artist X")
                (StoreFailure NetworkTimeout)).
  - by apply (proj1 (proj2 failed_insert_returns_none) failing_world
                (VStr "vid456") (VStr "Video B") (VStr "") (VStr "Artist Y")
                (VStr "http://v/456") (StoreFailure NetworkTimeout)).
  - by apply (proj1 (proj2 (proj2 failed_insert_returns_none)
                       failing_insert_after_miss "abc123" fetch_song_a _ NetworkTimeout
                       eq_refl eq_refl eq_refl eq_refl)).
  - by apply (proj2 (proj2 (proj2 failed_insert_returns_none)
                       failing_insert_after_miss "vid456" fetch_song_a _ NetworkTimeout
                       eq_refl eq_refl eq_refl eq_refl)).
Defined.

(** C2 does not hold of the code.  The store fails the insert with a
    network timeout, which is no duplicate-key error; [save_song] and
    [save_video] raise nothing and return [None], the getters do the same
    after a miss, and nothing is stored. *)
Theorem store_failure_is_swallowed :
  result (insert_one COL_SONGS
            (song_doc (VStr "abc123") (VStr "Song A") (VStr "") (VStr "Artist X") 1000))
         failing_world
    = Raise (StoreFailure NetworkTimeout)
  ∧ result (save_song (VStr "abc123") (VStr "Song A") (VStr "") (VStr "Artist X"))
           failing_world
    = Return None
  ∧ result (save_video (VStr "vid456") (VStr "Video B") (VStr "") (VStr "Artist Y")
                       (VStr "http://v/456"))
           failing_world
    = Return None
  ∧ result (get_track_by_youtube_id "abc123" (Some fetch_song_a))
           failing_insert_after_miss
    = Return None
  ∧ docs (mango_songs
            (exec (get_track_by_youtube_id "abc123" (Some fetch_song_a))
                  failing_insert_after_miss))
    = [].
Proof. split; [|split; [|split; [|split]]]; reflexivity. Qed.

(** ** What the module does to the store *)

Lemma grows_refl (w : World) : grows w w.
Proof.
  split; [intros c|]; exists []; by rewrite app_nil_r.
Qed.

Lemma grows_trans (w1 w2 w3 : World) : grows w1 w2 → grows w2 w3 → grows w1 w3.
Proof.
  intros [Hd12 (e12 & Ht12 & He12)] [Hd23 (e23 & Ht23 & He23)]. split.
  - intros c. destruct (Hd12 c) as (n12 & E12 & F12), (Hd23 c) as (n23 & E23 & F23).
    exists (n12 ++ n23). split.
    + by rewrite E23, E12, app_assoc.
    + by apply Forall_app.
  - exists (e12 ++ e23). split.
    + by rewrite Ht23, Ht12, app_assoc.
    + by apply Forall_app.
Qed.

Create HintDb keeps.

Lemma keeps_ret {A} (a : A) : keeps (mret a).
Proof. intros w. apply grows_refl. Qed.

Lemma keeps_raise {A} (e : Exn) : keeps (@raise A e).
Proof. intros w. apply grows_refl. Qed.

Lemma keeps_bind {A B} (m : M A) (f : A → M B) :
  keeps m → (∀ a, keeps (f a)) → keeps (m ≫= f).
Proof.
  intros Hm Hf w. specialize (Hm w). unfold exec in *.
  cbv beta iota delta [mbind M_bind].
  destruct (m w) as [[a|e] w1]; simpl in *; [|done].
  eapply grows_trans; [exact Hm | apply Hf].
Qed.

Lemma keeps_try {A} (body : M A) (handler : Exn → M A) :
  keeps body → (∀ e, keeps (handler e)) → keeps (try_except body handler).
Proof.
  intros Hb Hh w. specialize (Hb w). unfold exec, try_except in *.
  destruct (body w) as [[a|e] w1]; simpl in *; [done|].
  eapply grows_trans; [exact Hb | apply Hh].
Qed.

(** Reading the world and writing back an updated one. *)
Lemma keeps_update {B} (g : World → World) (rest : M B) :
  (∀ w, grows w (g w)) → keeps rest →
  keeps (get_world ≫= λ w, put_world (g w) ≫= λ _, rest).
Proof.
  intros Hg Hrest w. unfold exec.
  cbv beta iota delta [mbind M_bind get_world put_world].
  eapply grows_trans; [apply Hg | apply Hrest].
Qed.

Lemma keeps_if {A} (b : bool) (m1 m2 : M A) :
  keeps m1 → keeps m2 → keeps (if b then m1 else m2).
Proof. by destruct b. Qed.

(** A step that touches neither the documents nor the trace. *)
Lemma grows_same (w w' : World) :
  (∀ c, docs (coll c w') = docs (coll c w)) → trace w' = trace w → grows w w'.
Proof.
  intros Hd Ht. split.
  - intros c. exists []. by rewrite Hd, app_nil_r.
  - exists []. by rewrite Ht, app_nil_r.
Qed.

Lemma keeps_emit (e : Event) : insert_typed e → keeps (emit e).
Proof.
  intros He w. split.
  - intros c. exists []. by destruct c; rewrite app_nil_r.
  - exists [e]. split; [done|]. by apply Forall_singleton.
Qed.

Lemma keeps_store_call : keeps store_call.
Proof.
  intros w. apply grows_same; [intros c; destruct c|];
    unfold exec, store_call; by destruct (faults w) as [|[?|] ?].
Qed.

Lemma keeps_utcnow : keeps utcnow.
Proof. intros w. apply grows_refl. Qed.

Lemma keeps_ensure_client : keeps _ensure_client.
Proof.
  intros w. apply grows_same; [intros c; destruct c|];
    unfold exec, _ensure_client; by destruct (_client w).
Qed.

Lemma keeps_find_one (c : CollName) (field : string) (v : PyVal) :
  keeps (find_one c field v).
Proof.
  unfold find_one. apply keeps_bind; [by apply keeps_emit|intros _].
  apply keeps_bind; [apply keeps_store_call|intros _].
  intros w. apply grows_refl.
Qed.

Lemma typed_with_id (ty : string) (d : Doc) (v : PyVal) :
  typed_as ty d → typed_as ty (<["_id" := v]> d).
Proof. unfold typed_as. intros H. by rewrite lookup_insert_ne. Qed.

Lemma keeps_insert_one (c : CollName) (doc : Doc) :
  typed_as (type_of_coll c) doc → keeps (insert_one c doc).
Proof.
  intros Hty. unfold insert_one.
  apply keeps_bind; [by apply keeps_emit|intros _].
  apply keeps_bind; [apply keeps_store_call|intros _].
  intros w. unfold exec. cbv beta iota delta [mbind M_bind get_world put_world].
  set (doc' := match doc !! "_id" with Some _ => doc | None => _ end).
  assert (typed_as (type_of_coll c) doc') as Hty'.
  { subst doc'. destruct (doc !! "_id"); [done|]. by apply typed_with_id. }
  destruct (violates_unique doc' (coll c w)).
  - apply grows_same; [intros c'; by destruct c' | done].
  - split; [|exists []; by rewrite app_nil_r].
    intros c'. destruct c, c'; simpl;
      first [ exists [doc']; split; [done | by apply Forall_singleton]
            | exists []; by rewrite app_nil_r ].
Qed.

Lemma keeps_create_index (c : CollName) (field : string) (unique : bool) :
  keeps (create_index c field unique).
Proof.
  unfold create_index.
  apply keeps_bind; [by apply keeps_emit|intros _].
  apply keeps_bind; [apply keeps_store_call|intros _].
  intros w. unfold exec. cbv beta iota delta [mbind M_bind get_world put_world].
  destruct (List.find _ _) as [ix|].
  - destruct (bool_decide _); apply grows_refl.
  - destruct (_ && _); [apply grows_refl|].
    apply grows_same; [intros c'; by destruct c, c' | by destruct c].
Qed.

Lemma keeps_call_fetcher (fetch : Fetcher) (k : string) : keeps (call_fetcher fetch k).
Proof.
  unfold call_fetcher. apply keeps_bind; [by apply keeps_emit|intros _].
  destruct (fetch k); [apply keeps_ret | apply keeps_raise].
Qed.

Lemma keeps_dict_get (fetched : PyObj) (key : string) (dflt : PyVal) :
  keeps (dict_get fetched key dflt).
Proof. destruct fetched; [apply keeps_ret | apply keeps_raise]. Qed.

#[local] Hint Resolve keeps_ret keeps_raise keeps_try keeps_if keeps_store_call
  keeps_utcnow keeps_ensure_client keeps_find_one keeps_create_index
  keeps_call_fetcher keeps_dict_get : keeps.

Lemma song_doc_typed (yid title thumbnail singer : PyVal) (now : Z) :
  typed_as "song" (song_doc yid title thumbnail singer now).
Proof. reflexivity. Qed.

Lemma video_doc_typed (vid title thumbnail singer url : PyVal) (now : Z) :
  typed_as "video" (video_doc vid title thumbnail singer url now).
Proof. reflexivity. Qed.

Lemma keeps_save_song (yid title thumbnail singer : PyVal) :
  keeps (save_song yid title thumbnail singer).
Proof.
  unfold save_song. apply keeps_bind; [auto with keeps|intros _].
  apply keeps_bind; [auto with keeps|intros now].
  apply keeps_try; [|auto with keeps].
  apply keeps_bind; [|auto with keeps].
  apply (keeps_insert_one COL_SONGS), song_doc_typed.
Qed.

Lemma keeps_save_video (vid title thumbnail singer url : PyVal) :
  keeps (save_video vid title thumbnail singer url).
Proof.
  unfold save_video. apply keeps_bind; [auto with keeps|intros _].
  apply keeps_bind; [auto with keeps|intros now].
  apply keeps_try; [|auto with keeps].
  apply keeps_bind; [|auto with keeps].
  apply (keeps_insert_one COL_VIDEOS), video_doc_typed.
Qed.

Lemma keeps_get_song (k : string) : keeps (get_song_by_youtube_id k).
Proof. unfold get_song_by_youtube_id. apply keeps_bind; auto with keeps. Qed.

Lemma keeps_get_video (k : string) : keeps (get_video_by_video_id k).
Proof. unfold get_video_by_video_id. apply keeps_bind; auto with keeps. Qed.

#[local] Hint Resolve keeps_save_song keeps_save_video keeps_get_song
  keeps_get_video : keeps.

(** Peels the binds of a coroutine whose steps are all known to keep. *)
Ltac keeps_steps :=
  repeat first
    [ solve [auto with keeps]
    | apply keeps_bind; [solve [auto with keeps] | intros ?]
    | progress cbv zeta ].

Lemma keeps_get_track (k : string) (fetch : option Fetcher) :
  keeps (get_track_by_youtube_id k fetch).
Proof.
  unfold get_track_by_youtube_id.
  apply keeps_bind; [auto with keeps|intros found].
  apply keeps_if; [auto with keeps|].
  destruct fetch; keeps_steps.
Qed.

Lemma keeps_get_video_cached (k : string) (fetch : option Fetcher) :
  keeps (get_video_by_id_with_cache k fetch).
Proof.
  unfold get_video_by_id_with_cache.
  apply keeps_bind; [auto with keeps|intros found].
  apply keeps_if; [auto with keeps|].
  destruct fetch; keeps_steps.
Qed.

Lemma keeps_example (k : string) (is_video : bool) (fetch : Fetcher) :
  keeps (example_integration k is_video fetch).
Proof.
  unfold example_integration.
  destruct is_video; [apply keeps_get_video_cached | apply keeps_get_track].
Qed.

Lemma keeps_init_db (mongo_url db_name : option string) :
  keeps (init_db mongo_url db_name).
Proof.
  unfold init_db.
  apply (keeps_update
           (λ w, set_globals
                   (if truthy_arg mongo_url then default "" mongo_url else MONGO_URL w)
                   (if truthy_arg db_name then default "" db_name else DB_NAME w)
                   (_client w) (_db w) w));
    [|keeps_steps].
  intros w. apply grows_same; [intros c; by destruct c | done].
Qed.

Lemma run_op_grows (o : Op) (w : World) : grows w (run_op o w).
Proof.
  destruct o; cbv beta iota delta [run_op].
  - exact (keeps_init_db _ _ w).
  - exact (keeps_save_song _ _ _ _ w).
  - exact (keeps_save_video _ _ _ _ _ w).
  - exact (keeps_get_song _ w).
  - exact (keeps_get_video _ w).
  - exact (keeps_get_track _ _ w).
  - exact (keeps_get_video_cached _ _ w).
  - exact (keeps_example _ _ _ w).
Qed.

Lemma run_ops_grows (ops : list Op) (w : World) : grows w (run_ops ops w).
Proof.
  revert w. induction ops as [|o ops IH]; intros w.
  - apply grows_refl.
  - change (run_ops (o :: ops) w) with (run_ops ops (run_op o w)).
    eapply grows_trans; [apply run_op_grows | apply IH].
Qed.

Lemma inserts_typed (c : CollName) (evs : list Event) :
  Forall insert_typed evs → Forall (typed_as (type_of_coll c)) (inserts c evs).
Proof.
  induction 1 as [|e evs He _ IH]; [constructor|].
  unfold inserts in *.
  destruct e as [? ? ? | c' d | ? ? ? | ?]; cbn [omap list_omap]; try exact IH.
  destruct (bool_decide (c' = c)) eqn:E; [|exact IH].
  apply bool_decide_eq_true in E. subst c'. by constructor.
Qed.

Lemma grows_inserts (w w' : World) (c : CollName) :
  grows w w' → Forall (typed_as (type_of_coll c)) (inserts c (since w w')).
Proof.
  intros [_ (evs & Ht & Hevs)]. rewrite (since_app w w' evs Ht).
  by apply inserts_typed.
Qed.

Lemma find_app_some {A} (p : A → bool) (l l' : list A) (x : A) :
  List.find p l = Some x → List.find p (l ++ l') = Some x.
Proof.
  induction l as [|a l IH]; [done|]. cbn [List.find app].
  by destruct (p a).
Qed.

(** ** The type literal *)

(** C10. Whatever its arguments, [save_song] hands one document to
    [insert_one], of type "song", and the songs collection gains at its end
    nothing but documents of type "song"; likewise [save_video] with
    "video".  The same holds of the getters for every callback, whatever it
    returns or raises. *)
Theorem inserted_type_is_fixed (w : World) :
  (∀ yid title thumbnail singer : PyVal,
     let w' := exec (save_song yid title thumbnail singer) w in
     length (inserts COL_SONGS (since w w')) = 1
     ∧ Forall (typed_as "song") (inserts COL_SONGS (since w w'))
     ∧ ∃ new, docs (mango_songs w') = docs (mango_songs w) ++ new
              ∧ Forall (typed_as "song") new)
  ∧
  (∀ vid title thumbnail singer url : PyVal,
     let w' := exec (save_video vid title thumbnail singer url) w in
     length (inserts COL_VIDEOS (since w w')) = 1
     ∧ Forall (typed_as "video") (inserts COL_VIDEOS (since w w'))
     ∧ ∃ new, docs (mango_videos w') = docs (mango_videos w) ++ new
              ∧ Forall (typed_as "video") new)
  ∧
  (∀ (k : string) (fetch : option Fetcher),
     let w' := exec (get_track_by_youtube_id k fetch) w in
     Forall (typed_as "song") (inserts COL_SONGS (since w w'))
     ∧ ∃ new, docs (mango_songs w') = docs (mango_songs w) ++ new
              ∧ Forall (typed_as "song") new)
  ∧
  (∀ (k : string) (fetch : option Fetcher),
     let w' := exec (get_video_by_id_with_cache k fetch) w in
     Forall (typed_as "video") (inserts COL_VIDEOS (since w w'))
     ∧ ∃ new, docs (mango_videos w') = docs (mango_videos w) ++ new
              ∧ Forall (typed_as "video") new).
Proof.
  split; [|split; [|split]].
  - intros yid title thumbnail singer w'.
    pose proof (keeps_save_song yid title thumbnail singer w) as Hg. fold w' in Hg.
    split; [|split].
    + destruct (save_song_trace w yid title thumbnail singer) as (tl & Ht & Htl).
      fold w' in Ht. rewrite (since_app w w' _ Ht).
      by destruct Htl as [-> | ->].
    + apply (grows_inserts w w' COL_SONGS Hg).
    + apply (proj1 Hg COL_SONGS).
  - intros vid title thumbnail singer url w'.
    pose proof (keeps_save_video vid title thumbnail singer url w) as Hg. fold w' in Hg.
    split; [|split].
    + destruct (save_video_trace w vid title thumbnail singer url) as (tl & Ht & Htl).
      fold w' in Ht. rewrite (since_app w w' _ Ht).
      by destruct Htl as [-> | ->].
    + apply (grows_inserts w w' COL_VIDEOS Hg).
    + apply (proj1 Hg COL_VIDEOS).
  - intros k fetch w'.
    pose proof (keeps_get_track k fetch w) as Hg. fold w' in Hg.
    split; [apply (grows_inserts w w' COL_SONGS Hg) | apply (proj1 Hg COL_SONGS)].
  - intros k fetch w'.
    pose proof (keeps_get_video_cached k fetch w) as Hg. fold w' in Hg.
    split; [apply (grows_inserts w w' COL_VIDEOS Hg) | apply (proj1 Hg COL_VIDEOS)].
Qed.

(** ** Stored records stay *)

(** C8. Over any sequence of calls of the module, with any arguments and
    callbacks and whether the calls return or raise, each collection keeps
    the documents it had, unchanged and in place, and only gains documents
    after them.  So the record found under a key stays the record found
    under that key, with the [saved_at] it was inserted with. *)
Theorem stored_records_are_kept (ops : list Op) (w : World) (c : CollName) :
  docs (coll c w) `prefix_of` docs (coll c (run_ops ops w))
  ∧ (∀ (i : nat) (d : Doc),
       docs (coll c w) !! i = Some d → docs (coll c (run_ops ops w)) !! i = Some d)
  ∧ (∀ (field : string) (v : PyVal) (d : Doc),
       lookup_doc c field v w = Some d →
       lookup_doc c field v (run_ops ops w) = Some d
       ∧ field_of d "saved_at"
         = from_option (λ d', field_of d' "saved_at") VNone
                       (lookup_doc c field v (run_ops ops w))).
Proof.
  destruct (proj1 (run_ops_grows ops w) c) as (new & Hnew & _).
  split; [|split].
  - by exists new.
  - intros i d Hi. rewrite Hnew. by apply lookup_app_l_Some.
  - intros field v d Hfind. unfold lookup_doc in *.
    rewrite Hnew, (find_app_some _ _ new d Hfind). done.
Qed.

Lemma stored_records_are_kept_witness :
  lookup_doc COL_SONGS "youtube_id" (VStr "abc123") (run_ops session stocked_world)
    = Some stored_song
  ∧ docs (coll COL_VIDEOS (run_ops session stocked_world)) !! 0%nat = Some stored_video.
Proof.
  split.
  - apply (proj2 (proj2 (stored_records_are_kept session stocked_world COL_SONGS))
             "youtube_id" (VStr "abc123") stored_song eq_refl).
  - apply (proj1 (proj2 (stored_records_are_kept session stocked_world COL_VIDEOS))
             0%nat stored_video eq_refl).
Defined.

(** ** Failures on the way to the save *)

(** X1. A store failure on the first lookup comes out of both getters as it
    is: the callback is not called, nothing is handed to [insert_one], the
    collections are as before and the failure is used up. *)
Theorem lookup_failure_propagates (w : World) (k : string) (fetch : option Fetcher)
    (f : Fault) (rest : list (option Fault)) :
  faults w = Some f :: rest →
  (let w' := exec (get_track_by_youtube_id k fetch) w in
   result (get_track_by_youtube_id k fetch) w = Raise (StoreFailure f)
   ∧ since w w' = [EvFind COL_SONGS "youtube_id" (VStr k)]
   ∧ mango_songs w' = mango_songs w ∧ mango_videos w' = mango_videos w
   ∧ faults w' = rest)
  ∧
  (let w' := exec (get_video_by_id_with_cache k fetch) w in
   result (get_video_by_id_with_cache k fetch) w = Raise (StoreFailure f)
   ∧ since w w' = [EvFind COL_VIDEOS "video_id" (VStr k)]
   ∧ mango_songs w' = mango_songs w ∧ mango_videos w' = mango_videos w
   ∧ faults w' = rest).
Proof.
  intros Hf. split; intros w'; subst w';
    open_world w; try discriminate Hf; injection Hf as -> ->;
    (split; [done|]);
    (split; [unfold since; run_module; by rewrite drop_app_length|]); done.
Qed.

Lemma lookup_failure_propagates_witness :
  result (get_track_by_youtube_id "abc123" (Some fetch_song_a)) failing_world
    = Raise (StoreFailure NetworkTimeout)
  ∧ result (get_video_by_id_with_cache "vid456" None) failing_world
    = Raise (StoreFailure NetworkTimeout).
Proof.
  split.
  - apply (proj1 (lookup_failure_propagates failing_world "abc123" (Some fetch_song_a)
                    NetworkTimeout [] eq_refl)).
  - apply (proj2 (lookup_failure_propagates failing_world "vid456" None
                    NetworkTimeout [] eq_refl)).
Defined.

(** X2. On a miss, what goes wrong in the callback comes out of the getter:
    the exception the callback raises, or [AttributeError] when it returns
    something that is no dict.  Nothing is handed to [insert_one] and the
    collections are as before. *)
Theorem fetcher_failure_propagates (w : World) (k : string) (fetch : Fetcher) (e : Exn) :
  call_ok 0 w →
  (fetch k = Raise e ∨ ∃ v, fetch k = Return (OOther v) ∧ e = AttributeError) →
  (lookup_doc COL_SONGS "youtube_id" (VStr k) w = None →
     let w' := exec (get_track_by_youtube_id k (Some fetch)) w in
     result (get_track_by_youtube_id k (Some fetch)) w = Raise e
     ∧ since w w' = [EvFind COL_SONGS "youtube_id" (VStr k); EvFetch k]
     ∧ mango_songs w' = mango_songs w ∧ mango_videos w' = mango_videos w)
  ∧
  (lookup_doc COL_VIDEOS "video_id" (VStr k) w = None →
     let w' := exec (get_video_by_id_with_cache k (Some fetch)) w in
     result (get_video_by_id_with_cache k (Some fetch)) w = Raise e
     ∧ since w w' = [EvFind COL_VIDEOS "video_id" (VStr k); EvFetch k]
     ∧ mango_songs w' = mango_songs w ∧ mango_videos w' = mango_videos w).
Proof.
  intros Hok Hfetch. split; intros Habs w'; subst w';
    open_world w; try discriminate Hok; rewrite Habs;
    (destruct Hfetch as [Hfetch | (v & Hfetch & ->)]; rewrite Hfetch; run_module;
     (split; [done|]);
     (split; [unfold since; run_module;
              by rewrite <- app_assoc, drop_app_length|]); done).
Qed.

Lemma fetcher_failure_propagates_witness :
  result (get_track_by_youtube_id "abc123" (Some fetch_none)) fresh_world
    = Raise AttributeError
  ∧ result (get_video_by_id_with_cache "vid456" (Some fetch_down)) fresh_world
    = Raise (FetcherRaised "source unreachable").
Proof.
  split.
  - apply (proj1 (fetcher_failure_propagates fresh_world "abc123" fetch_none AttributeError
                    eq_refl (or_intror (ex_intro _ VNone (conj eq_refl eq_refl))))).
    reflexivity.
  - apply (proj2 (fetcher_failure_propagates fresh_world "vid456" fetch_down
                    (FetcherRaised "source unreachable") eq_refl (or_introl eq_refl))).
    reflexivity.
Defined.

(** Reads off the outside calls made since the start of a run. *)
Ltac since_run :=
  unfold since; run_module; rewrite <- ?app_assoc, drop_app_length.

(** X3. On a miss the callback is called once, with the key asked for, and
    at most one document is handed to [insert_one], whatever the callback
    answers and whatever the store does afterwards. *)
Theorem fetcher_called_once (w : World) (k : string) (fetch : Fetcher) :
  call_ok 0 w →
  (lookup_doc COL_SONGS "youtube_id" (VStr k) w = None →
     let w' := exec (get_track_by_youtube_id k (Some fetch)) w in
     fetches (since w w') = [k]
     ∧ (length (inserts COL_SONGS (since w w')) ≤ 1)%nat
     ∧ inserts COL_VIDEOS (since w w') = [])
  ∧
  (lookup_doc COL_VIDEOS "video_id" (VStr k) w = None →
     let w' := exec (get_video_by_id_with_cache k (Some fetch)) w in
     fetches (since w w') = [k]
     ∧ (length (inserts COL_VIDEOS (since w w')) ≤ 1)%nat
     ∧ inserts COL_SONGS (since w w') = []).
Proof.
  intros Hok. split; intros Habs w'; subst w';
    open_world w; try discriminate Hok; rewrite Habs;
    (destruct (fetch k) as [[raw|v]|e]; run_module; run_on;
     since_run; cbn; auto).
Qed.

Lemma fetcher_called_once_witness :
  fetches (since fresh_world
             (exec (get_track_by_youtube_id "abc123" (Some fetch_song_a)) fresh_world))
    = ["abc123"]
  ∧ fetches (since fresh_world
               (exec (get_video_by_id_with_cache "vid456" (Some fetch_down)) fresh_world))
    = ["vid456"].
Proof.
  split.
  - apply (proj1 (fetcher_called_once fresh_world "abc123" fetch_song_a eq_refl) eq_refl).
  - apply (proj2 (fetcher_called_once fresh_world "vid456" fetch_down eq_refl) eq_refl).
Defined.

(** ** What the getters raise and return *)



Lemma song_doc_no_id (yid title thumbnail singer : PyVal) (now : Z) :
  song_doc yid title thumbnail singer now !! "_id" = None.
Proof. reflexivity. Qed.

Lemma video_doc_no_id (vid title thumbnail singer url : PyVal) (now : Z) :
  video_doc vid title thumbnail singer url now !! "_id" = None.
Proof. reflexivity. Qed.

Lemma song_doc_key (yid title thumbnail singer v : PyVal) (now : Z) :
  field_of (<["_id" := v]> (song_doc yid title thumbnail singer now)) "youtube_id" = yid.
Proof. reflexivity. Qed.

Lemma video_doc_key (vid title thumbnail singer url v : PyVal) (now : Z) :
  field_of (<["_id" := v]> (video_doc vid title thumbnail singer url now)) "video_id" = vid.
Proof. reflexivity. Qed.

(** X5. Whenever a save returns a record, be it the one just inserted or
    the one found by the re-read, the record's key field is the key the save
    was called with. *)
Theorem saved_record_has_key :
  (∀ (w : World) (yid title thumbnail singer : PyVal) (d : Doc),
     result (save_song yid title thumbnail singer) w = Return (Some d) →
     field_of d "youtube_id" = yid)
  ∧
  (∀ (w : World) (vid title thumbnail singer url : PyVal) (d : Doc),
     result (save_video vid title thumbnail singer url) w = Return (Some d) →
     field_of d "video_id" = vid).
Proof.
  split; intros; revert H; open_world w; run_on; intros H;
    try discriminate H; injection H as H;
    lazymatch type of H with
    | List.find _ _ = Some _ => by apply find_matches in H as [_ H]
    | _ => subst d; first [exact (song_doc_key _ _ _ _ _ _)
                          | exact (video_doc_key _ _ _ _ _ _ _)]
    end.
Qed.

Lemma saved_record_has_key_witness :
  field_of stored_song "youtube_id" = VStr "abc123"
  ∧ field_of stored_video "video_id" = VStr "vid456".
Proof.
  split.
  - apply (proj1 saved_record_has_key stocked_world
             (VStr "abc123") (VStr "Other title") (VStr "") (VStr "Other")).
    reflexivity.
  - apply (proj2 saved_record_has_key stocked_world
             (VStr "vid456") (VStr "Other title") (VStr "") (VStr "Other") (VStr "")).
    reflexivity.
Defined.

(** What [insert_one] does to the collections: nothing, or one document
    that breaks no unique index is appended to its collection. *)
Lemma insert_one_cases (c : CollName) (doc : Doc) (w : World) :
  let w' := exec (insert_one c doc) w in
  (∀ c', coll c' w' = coll c' w)
  ∨ (violates_unique (with_id doc w) (coll c w) = false
     ∧ coll c w' = {| docs := docs (coll c w) ++ [with_id doc w];
                      indexes := indexes (coll c w) |}
     ∧ ∀ c', c' ≠ c → coll c' w' = coll c' w).
Proof.
  unfold with_id. destruct c; open_world w; run_on;
    first [ left; intros c'; by destruct c'
          | right; split; [done|]; split; [done|]; intros c' Hc'; by destruct c' ].
Qed.

(** What [create_index] does to the collections: nothing, or the index is
    added to its collection. *)
Lemma create_index_cases (c : CollName) (field : string) (unique : bool) (w : World) :
  let w' := exec (create_index c field unique) w in
  (∀ c', coll c' w' = coll c' w)
  ∨ (coll c w' = {| docs := docs (coll c w);
                    indexes := indexes (coll c w) ++ [(field, unique)] |}
     ∧ ∀ c', c' ≠ c → coll c' w' = coll c' w).
Proof.
  destruct c; open_world w;
    try (destruct (List.find _ _) as [ix|]; run_module); run_on;
    first [ left; intros c'; by destruct c'
          | right; split; [done|]; intros c' Hc'; by destruct c' ].
Qed.

(** ** Invariants of the store *)

Create HintDb preserves.

Section Invariant.

(** A property that looks at the two collections only. *)
Variable I : World → Prop.
Hypothesis I_store : ∀ w w',
  mango_songs w' = mango_songs w → mango_videos w' = mango_videos w → I w → I w'.

Lemma preserves_ret {A} (a : A) : preserves I (mret a).
Proof. by intros w. Qed.

Lemma preserves_raise {A} (e : Exn) : preserves I (@raise A e).
Proof. by intros w. Qed.

Lemma preserves_bind {A B} (m : M A) (f : A → M B) :
  preserves I m → (∀ a, preserves I (f a)) → preserves I (m ≫= f).
Proof.
  intros Hm Hf w Hw. specialize (Hm w Hw). unfold exec in *.
  cbv beta iota delta [mbind M_bind].
  destruct (m w) as [[a|e] w1]; [by apply Hf | done].
Qed.

Lemma preserves_try {A} (body : M A) (handler : Exn → M A) :
  preserves I body → (∀ e, preserves I (handler e)) →
  preserves I (try_except body handler).
Proof.
  intros Hb Hh w Hw. specialize (Hb w Hw). unfold exec, try_except in *.
  destruct (body w) as [[a|e] w1]; [done | by apply Hh].
Qed.

Lemma preserves_if {A} (b : bool) (m1 m2 : M A) :
  preserves I m1 → preserves I m2 → preserves I (if b then m1 else m2).
Proof. by destruct b. Qed.

Lemma preserves_emit (e : Event) : preserves I (emit e).
Proof. intros w. by apply I_store. Qed.

Lemma preserves_store_call : preserves I store_call.
Proof.
  intros w. unfold exec, store_call.
  destruct (faults w) as [|[?|] ?]; by apply I_store.
Qed.

Lemma preserves_utcnow : preserves I utcnow.
Proof. by intros w. Qed.

Lemma preserves_ensure_client : preserves I _ensure_client.
Proof.
  intros w. unfold exec, _ensure_client. destruct (_client w); by apply I_store.
Qed.

Lemma preserves_find_one (c : CollName) (field : string) (v : PyVal) :
  preserves I (find_one c field v).
Proof.
  unfold find_one.
  apply preserves_bind; [apply preserves_emit | intros _].
  apply preserves_bind; [apply preserves_store_call | intros _].
  by intros w.
Qed.

Lemma preserves_call_fetcher (fetch : Fetcher) (k : string) :
  preserves I (call_fetcher fetch k).
Proof.
  unfold call_fetcher. apply preserves_bind; [apply preserves_emit | intros _].
  destruct (fetch k); [apply preserves_ret | apply preserves_raise].
Qed.

Lemma preserves_dict_get (fetched : PyObj) (key : string) (dflt : PyVal) :
  preserves I (dict_get fetched key dflt).
Proof. destruct fetched; [apply preserves_ret | apply preserves_raise]. Qed.

Lemma preserves_get_song (k : string) : preserves I (get_song_by_youtube_id k).
Proof.
  unfold get_song_by_youtube_id.
  apply preserves_bind; [apply preserves_ensure_client | intros _].
  apply preserves_find_one.
Qed.

Lemma preserves_get_video (k : string) : preserves I (get_video_by_video_id k).
Proof.
  unfold get_video_by_video_id.
  apply preserves_bind; [apply preserves_ensure_client | intros _].
  apply preserves_find_one.
Qed.

#[local] Hint Resolve preserves_ret preserves_raise preserves_try preserves_if
  preserves_store_call preserves_utcnow preserves_ensure_client preserves_find_one
  preserves_call_fetcher preserves_dict_get preserves_get_song
  preserves_get_video : preserves.

(** Songs: all that is asked of [I] beyond [I_store] is that inserting into
    the songs collection keeps it. *)
Hypothesis I_insert_song : ∀ doc, preserves I (insert_one COL_SONGS doc).

Lemma preserves_save_song (yid title thumbnail singer : PyVal) :
  preserves I (save_song yid title thumbnail singer).
Proof.
  unfold save_song. apply preserves_bind; [auto with preserves | intros _].
  apply preserves_bind; [auto with preserves | intros now].
  apply preserves_try; [|auto with preserves].
  apply preserves_bind; [apply I_insert_song | auto with preserves].
Qed.

Ltac preserves_steps :=
  repeat first
    [ solve [auto with preserves]
    | apply preserves_bind; [solve [auto with preserves] | intros ?]
    | progress cbv zeta ].

Lemma preserves_get_track (k : string) (fetch : option Fetcher) :
  preserves I (get_track_by_youtube_id k fetch).
Proof.
  unfold get_track_by_youtube_id.
  apply preserves_bind; [auto with preserves | intros found].
  apply preserves_if; [auto with preserves|].
  pose proof preserves_save_song.
  destruct fetch; preserves_steps.
Qed.

(** Videos, likewise. *)
Hypothesis I_insert_video : ∀ doc, preserves I (insert_one COL_VIDEOS doc).

Lemma preserves_save_video (vid title thumbnail singer url : PyVal) :
  preserves I (save_video vid title thumbnail singer url).
Proof.
  unfold save_video. apply preserves_bind; [auto with preserves | intros _].
  apply preserves_bind; [auto with preserves | intros now].
  apply preserves_try; [|auto with preserves].
  apply preserves_bind; [apply I_insert_video | auto with preserves].
Qed.

Lemma preserves_get_video_cached (k : string) (fetch : option Fetcher) :
  preserves I (get_video_by_id_with_cache k fetch).
Proof.
  unfold get_video_by_id_with_cache.
  apply preserves_bind; [auto with preserves | intros found].
  apply preserves_if; [auto with preserves|].
  pose proof preserves_save_video.
  destruct fetch; preserves_steps.
Qed.

(** The whole module, once creating an index keeps [I] too. *)
Hypothesis I_index : ∀ c field unique, preserves I (create_index c field unique).

Lemma preserves_init_db (mongo_url db_name : option string) :
  preserves I (init_db mongo_url db_name).
Proof.
  intros w Hw. unfold exec, init_db.
  cbv beta iota delta [mbind M_bind get_world put_world].
  set (w1 := set_globals _ _ _ _ w).
  assert (I w1) as Hw1 by (by apply (I_store w)).
  revert Hw1. generalize w1. clear w Hw w1.
  change (preserves I (_ensure_client ≫= λ _,
            create_index COL_SONGS "youtube_id" true ≫= λ _,
            create_index COL_VIDEOS "video_id" true ≫= λ _,
            create_index COL_SONGS "title" false ≫= λ _,
            create_index COL_VIDEOS "title" false)).
  repeat (apply preserves_bind; [first [apply preserves_ensure_client | apply I_index]
                                | intros _]).
  apply I_index.
Qed.

Lemma preserves_run_op (o : Op) (w : World) : I w → I (run_op o w).
Proof.
  destruct o; cbv beta iota delta [run_op].
  - exact (preserves_init_db _ _ w).
  - exact (preserves_save_song _ _ _ _ w).
  - exact (preserves_save_video _ _ _ _ _ w).
  - exact (preserves_get_song _ w).
  - exact (preserves_get_video _ w).
  - exact (preserves_get_track _ _ w).
  - exact (preserves_get_video_cached _ _ w).
  - destruct is_video;
      [exact (preserves_get_video_cached _ _ w) | exact (preserves_get_track _ _ w)].
Qed.

Lemma preserves_run_ops (ops : list Op) (w : World) : I w → I (run_ops ops w).
Proof.
  revert w. induction ops as [|o ops IH]; intros w Hw; [done|].
  change (run_ops (o :: ops) w) with (run_ops ops (run_op o w)).
  by apply IH, preserves_run_op.
Qed.

End Invariant.

Lemma violates_unique_false (doc : Doc) (c : Collection) (field : string) :
  violates_unique doc c = false → (field, true) ∈ indexes c →
  ∀ d, d ∈ docs c → field_of d field ≠ field_of doc field.
Proof.
  unfold violates_unique. intros Hv Hix d Hd Heq.
  apply not_true_iff_false in Hv. apply Hv.
  apply existsb_exists. exists (field, true). split; [by apply list_elem_of_In|].
  apply existsb_exists. exists d. split; [by apply list_elem_of_In|].
  by apply bool_decide_eq_true.
Qed.

Lemma keys_unique_store (c : CollName) (field : string) (w w' : World) :
  mango_songs w' = mango_songs w → mango_videos w' = mango_videos w →
  keys_unique c field w → keys_unique c field w'.
Proof. unfold keys_unique. intros Hs Hv. destruct c; simpl; by rewrite ?Hs, ?Hv. Qed.

Lemma keys_unique_insert (c : CollName) (field : string) (c0 : CollName) (doc : Doc) :
  preserves (keys_unique c field) (insert_one c0 doc).
Proof.
  intros w [Hix Hnd]. unfold keys_unique.
  destruct (insert_one_cases c0 doc w) as [Hsame | (Hv & Hnew & Hother)].
  - by rewrite Hsame.
  - destruct (decide (c = c0)) as [-> | Hne]; [|by rewrite (Hother c Hne)].
    rewrite Hnew. cbn [docs indexes]. split; [done|].
    rewrite map_app. apply NoDup_app. split; [done|]. split; [|apply NoDup_singleton].
    intros key Hkey Hin. apply list_elem_of_singleton in Hin. subst key.
    apply list_elem_of_fmap in Hkey as (d & Hd & Hin).
    by apply (violates_unique_false _ _ field Hv Hix d Hin).
Qed.

Lemma keys_unique_index (c : CollName) (field : string)
    (c0 : CollName) (field0 : string) (unique : bool) :
  preserves (keys_unique c field) (create_index c0 field0 unique).
Proof.
  intros w [Hix Hnd]. unfold keys_unique.
  destruct (create_index_cases c0 field0 unique w) as [Hsame | (Hnew & Hother)].
  - by rewrite Hsame.
  - destruct (decide (c = c0)) as [-> | Hne]; [|by rewrite (Hother c Hne)].
    rewrite Hnew. cbn [docs indexes]. split; [|done].
    apply elem_of_app. by left.
Qed.

Lemma unique_keys_hold (ops : list Op) (w : World) (c : CollName) (field : string) :
  keys_unique c field w → keys_unique c field (run_ops ops w).
Proof.
  apply preserves_run_ops.
  - apply keys_unique_store.
  - intros doc. apply keys_unique_insert.
  - intros doc. apply keys_unique_insert.
  - apply keys_unique_index.
Qed.

(** X6. Once a collection has a unique index on a field and no two of its
    documents agree on that field, this stays so over any sequence of calls
    of the module: with the indexes of [init_db] in place, no call stores a
    second record under a [youtube_id] or a [video_id]. *)
Theorem unique_keys_are_kept (ops : list Op) (w : World) (c : CollName) (field : string) :
  keys_unique c field w → keys_unique c field (run_ops ops w).
Proof. apply unique_keys_hold. Qed.

Lemma unique_keys_are_kept_witness :
  keys_unique COL_SONGS "youtube_id" (run_ops session stocked_world)
  ∧ keys_unique COL_VIDEOS "video_id" (run_ops session stocked_world).
Proof.
  split; apply unique_keys_are_kept;
    (split; [apply list_elem_of_here | apply (NoDup_singleton (A:=PyVal))]).
Defined.

(** X7. The song functions never touch the videos collection, neither its
    documents nor its indexes, and the video functions never touch the
    songs collection; [example_integration] touches only the collection its
    flag selects. *)
Theorem other_collection_untouched (w : World) :
  (∀ yid title thumbnail singer,
     mango_videos (exec (save_song yid title thumbnail singer) w) = mango_videos w)
  ∧ (∀ k fetch,
       mango_videos (exec (get_track_by_youtube_id k fetch) w) = mango_videos w)
  ∧ (∀ vid title thumbnail singer url,
       mango_songs (exec (save_video vid title thumbnail singer url) w) = mango_songs w)
  ∧ (∀ k fetch,
       mango_songs (exec (get_video_by_id_with_cache k fetch) w) = mango_songs w)
  ∧ (∀ k fetch,
       mango_videos (exec (example_integration k false fetch) w) = mango_videos w
       ∧ mango_songs (exec (example_integration k true fetch) w) = mango_songs w).
Proof.
  assert (∀ doc, preserves (λ w', mango_videos w' = mango_videos w)
                           (insert_one COL_SONGS doc)) as Hsong.
  { intros doc w1 Hw1.
    destruct (insert_one_cases COL_SONGS doc w1) as [Hsame | (_ & _ & Hother)].
    - pose proof (Hsame COL_VIDEOS) as E. cbn [coll] in E. congruence.
    - pose proof (Hother COL_VIDEOS ltac:(done)) as E. cbn [coll] in E. congruence. }
  assert (∀ doc, preserves (λ w', mango_songs w' = mango_songs w)
                           (insert_one COL_VIDEOS doc)) as Hvideo.
  { intros doc w1 Hw1.
    destruct (insert_one_cases COL_VIDEOS doc w1) as [Hsame | (_ & _ & Hother)].
    - pose proof (Hsame COL_SONGS) as E. cbn [coll] in E. congruence.
    - pose proof (Hother COL_SONGS ltac:(done)) as E. cbn [coll] in E. congruence. }
  assert (∀ w1 w2 : World, mango_songs w2 = mango_songs w1 →
            mango_videos w2 = mango_videos w1 →
            mango_videos w1 = mango_videos w → mango_videos w2 = mango_videos w)
    as Hfv by (intros w1 w2 _ Hv H; congruence).
  assert (∀ w1 w2 : World, mango_songs w2 = mango_songs w1 →
            mango_videos w2 = mango_videos w1 →
            mango_songs w1 = mango_songs w → mango_songs w2 = mango_songs w)
    as Hfs by (intros w1 w2 Hs _ H; congruence).
  split; [|split; [|split; [|split]]].
  - intros. by apply (preserves_save_song _ Hfv Hsong).
  - intros. by apply (preserves_get_track _ Hfv Hsong).
  - intros. by apply (preserves_save_video _ Hfs Hvideo).
  - intros. by apply (preserves_get_video_cached _ Hfs Hvideo).
  - intros. split.
    + by apply (preserves_get_track _ Hfv Hsong).
    + by apply (preserves_get_video_cached _ Hfs Hvideo).
Qed.

(** ** Successful saves *)


Lemma find_app_new {A} (p : A → bool) (l : list A) (x : A) :
  List.find p l = None → p x = true → List.find p (l ++ [x]) = Some x.
Proof.
  induction l as [|a l IH]; cbn [List.find app].
  - by intros _ ->.
  - destruct (p a); [done | exact IH].
Qed.

Lemma find_app_other {A} (p : A → bool) (l : list A) (x : A) :
  List.find p l = None → p x = false → List.find p (l ++ [x]) = None.
Proof.
  induction l as [|a l IH]; cbn [List.find app].
  - by intros _ ->.
  - destruct (p a); [done | exact IH].
Qed.





Lemma call_ok_drop (n m : nat) (w w' : World) :
  faults w' = drop n (faults w) → call_ok (n + m) w → call_ok m w'.
Proof. unfold call_ok. intros ->. by rewrite lookup_drop. Qed.





(** ** Fetching once *)







(** X11. A record stored under another key is no hit.  After a miss on
    which the callback returns a dict whose own key field is true and
    differs from the key asked for, the key asked for is still absent from
    the collection, whatever the store did with the insert: the next call
    with that key misses again. *)
Theorem foreign_key_is_not_cached (w : World) (k : string) (fetch : Fetcher) (raw : Doc) :
  call_ok 0 w →
  fetch k = Return (ODict raw) →
  (lookup_doc COL_SONGS "youtube_id" (VStr k) w = None →
   py_or (default VNone (raw !! "youtube_id")) (VStr k) ≠ VStr k →
   lookup_doc COL_SONGS "youtube_id" (VStr k)
              (exec (get_track_by_youtube_id k (Some fetch)) w) = None)
  ∧
  (lookup_doc COL_VIDEOS "video_id" (VStr k) w = None →
   py_or (default VNone (raw !! "video_id")) (VStr k) ≠ VStr k →
   lookup_doc COL_VIDEOS "video_id" (VStr k)
              (exec (get_video_by_id_with_cache k (Some fetch)) w) = None).
Proof.
  intros Hok Hfetch. split; intros Hmiss Hkey;
    open_world w; try discriminate Hok; rewrite Hmiss, Hfetch; run_module; run_on;
    try exact Hmiss;
    rewrite ?song_doc_no_id, ?video_doc_no_id;
    (apply find_app_other; [exact Hmiss|]);
    apply bool_decide_eq_false; by rewrite ?song_doc_key, ?video_doc_key.
Qed.

Lemma foreign_key_is_not_cached_witness :
  lookup_doc COL_SONGS "youtube_id" (VStr "abc123")
             (exec (get_track_by_youtube_id "abc123" (Some fetch_full)) fresh_world)
  = None.
Proof.
  apply (proj1 (foreign_key_is_not_cached fresh_world "abc123" fetch_full _
                  eq_refl eq_refl)).
  - reflexivity.
  - discriminate.
Defined.

(** ** Start-up *)

Lemma init_db_split (mongo_url db_name : option string) (w : World) :
  init_db mongo_url db_name w = index_setup (init_db_prepared mongo_url db_name w).
Proof.
  unfold init_db, init_db_prepared, exec.
  cbv beta iota delta [mbind M_bind get_world put_world].
  set (w0 := set_globals _ _ _ _ w).
  unfold _ensure_client. destruct (_client w0); reflexivity.
Qed.

Lemma init_db_prepared_store (mongo_url db_name : option string) (w : World) :
  mango_songs (init_db_prepared mongo_url db_name w) = mango_songs w
  ∧ mango_videos (init_db_prepared mongo_url db_name w) = mango_videos w
  ∧ faults (init_db_prepared mongo_url db_name w) = faults w.
Proof.
  unfold init_db_prepared, exec, _ensure_client. by destruct (_client _).
Qed.





Lemma create_index_returns (c : CollName) (field : string) (unique : bool) (w : World) :
  result (create_index c field unique) w = Return () →
  index_flag c field (exec (create_index c field unique) w) = Some unique.
Proof.
  unfold index_flag.
  destruct c; open_world w; try discriminate;
    (destruct (List.find _ _) as [ix|] eqn:Hfind; run_module; run_on;
     intros H; try discriminate H;
     [ rewrite Hfind; cbn; f_equal;
       match goal with
       | Hb : bool_decide _ = true |- _ => by apply bool_decide_eq_true in Hb
       end
     | erewrite find_app_new; [reflexivity | exact Hfind
                              | by apply bool_decide_eq_true] ]).
Qed.

Lemma create_index_keeps_flag (c : CollName) (field : string) (unique : bool)
    (c0 : CollName) (field0 : string) (u0 : bool) (w : World) :
  index_flag c0 field0 w = Some u0 →
  index_flag c0 field0 (exec (create_index c field unique) w) = Some u0.
Proof.
  unfold index_flag. intros H.
  destruct (create_index_cases c field unique w) as [Hsame | (Hnew & Hother)].
  - by rewrite Hsame.
  - destruct (decide (c0 = c)) as [-> | Hne]; [|by rewrite (Hother c0 Hne)].
    rewrite Hnew. cbn [indexes].
    destruct (List.find _ (indexes (coll c w))) as [ix|] eqn:Hfind; [|done].
    by rewrite (find_app_some _ _ _ _ Hfind).
Qed.

Lemma create_index_docs (c : CollName) (field : string) (unique : bool)
    (c0 : CollName) (w : World) :
  docs (coll c0 (exec (create_index c field unique) w)) = docs (coll c0 w).
Proof.
  destruct (create_index_cases c field unique w) as [Hsame | (Hnew & Hother)].
  - by rewrite Hsame.
  - destruct (decide (c0 = c)) as [-> | Hne]; [|by rewrite (Hother c0 Hne)].
    by rewrite Hnew.
Qed.

Lemma index_flag_elem (c : CollName) (field : string) (u : bool) (w : World) :
  index_flag c field w = Some u → (field, u) ∈ indexes (coll c w).
Proof.
  unfold index_flag. destruct (List.find _ _) as [[f u']|] eqn:Hfind; [|done].
  intros [= ->]. apply find_some in Hfind as [Hin Hf].
  apply bool_decide_eq_true in Hf. simpl in Hf. subst f. by apply list_elem_of_In.
Qed.

(** A bind that returns went through its first step. *)
Lemma bind_returns {A B} (m : M A) (f : A → M B) (w : World) (b : B) :
  result (m ≫= f) w = Return b →
  ∃ a, result m w = Return a
       ∧ result (f a) (exec m w) = Return b
       ∧ exec (m ≫= f) w = exec (f a) (exec m w).
Proof.
  unfold result, exec. cbv beta iota delta [mbind M_bind].
  destruct (m w) as [[a|e] w1]; [|discriminate]. intros H. by exists a.
Qed.

(** What a returning [init_db] leaves in the store. *)
Lemma init_db_indexes (w : World) (mongo_url db_name : option string) :
  result (init_db mongo_url db_name) w = Return () →
  let w' := exec (init_db mongo_url db_name) w in
  index_flag COL_SONGS "youtube_id" w' = Some true
  ∧ index_flag COL_VIDEOS "video_id" w' = Some true
  ∧ index_flag COL_SONGS "title" w' = Some false
  ∧ index_flag COL_VIDEOS "title" w' = Some false
  ∧ ("youtube_id", true) ∈ indexes (mango_songs w')
  ∧ ("video_id", true) ∈ indexes (mango_videos w')
  ∧ docs (mango_songs w') = docs (mango_songs w)
  ∧ docs (mango_videos w') = docs (mango_videos w).
Proof.
  intros Hret w'. subst w'. revert Hret. unfold result, exec. rewrite init_db_split.
  destruct (init_db_prepared_store mongo_url db_name w) as (Hs & Hv & _).
  rewrite <- Hs, <- Hv. generalize (init_db_prepared mongo_url db_name w).
  clear. intros w Hret. fold (result index_setup w) in Hret.
  fold (exec index_setup w). unfold index_setup in *.
  apply bind_returns in Hret as ([] & H1 & Hret & ->).
  apply bind_returns in Hret as ([] & H2 & Hret & ->).
  apply bind_returns in Hret as ([] & H3 & H4 & ->).
  apply create_index_returns in H1, H2, H3, H4.
  set (w1 := exec (create_index COL_SONGS "youtube_id" true) w) in *.
  set (w2 := exec (create_index COL_VIDEOS "video_id" true) w1) in *.
  set (w3 := exec (create_index COL_SONGS "title" false) w2) in *.
  set (w4 := exec (create_index COL_VIDEOS "title" false) w3) in *.
  assert (index_flag COL_SONGS "youtube_id" w4 = Some true) as F1
    by (do 3 apply create_index_keeps_flag; exact H1).
  assert (index_flag COL_VIDEOS "video_id" w4 = Some true) as F2
    by (do 2 apply create_index_keeps_flag; exact H2).
  assert (index_flag COL_SONGS "title" w4 = Some false) as F3
    by (apply create_index_keeps_flag; exact H3).
  split; [exact F1|]. split; [exact F2|]. split; [exact F3|]. split; [exact H4|].
  split; [exact (index_flag_elem _ _ _ _ F1)|].
  split; [exact (index_flag_elem _ _ _ _ F2)|].
  split.
  - change (docs (coll COL_SONGS w4) = docs (coll COL_SONGS w)).
    subst w4 w3 w2 w1. by rewrite !create_index_docs.
  - change (docs (coll COL_VIDEOS w4) = docs (coll COL_VIDEOS w)).
    subst w4 w3 w2 w1. by rewrite !create_index_docs.
Qed.

(** X13. When [init_db] returns, the store has a unique index on
    [youtube_id] of the songs and on [video_id] of the videos and a plain
    index on [title] of both; the documents are as before. *)
Theorem init_db_postcondition (w : World) (mongo_url db_name : option string) :
  result (init_db mongo_url db_name) w = Return () →
  let w' := exec (init_db mongo_url db_name) w in
  index_flag COL_SONGS "youtube_id" w' = Some true
  ∧ index_flag COL_VIDEOS "video_id" w' = Some true
  ∧ index_flag COL_SONGS "title" w' = Some false
  ∧ index_flag COL_VIDEOS "title" w' = Some false
  ∧ ("youtube_id", true) ∈ indexes (mango_songs w')
  ∧ ("video_id", true) ∈ indexes (mango_videos w')
  ∧ docs (mango_songs w') = docs (mango_songs w)
  ∧ docs (mango_videos w') = docs (mango_videos w).
Proof. apply init_db_indexes. Qed.

Lemma init_db_postcondition_witness :
  index_flag COL_SONGS "youtube_id" (exec (init_db None None) fresh_world) = Some true
  ∧ index_flag COL_VIDEOS "title" (exec (init_db None None) fresh_world) = Some false.
Proof.
  destruct (init_db_postcondition fresh_world None None eq_refl)
    as (H1 & _ & _ & H4 & _).
  split; [exact H1 | exact H4].
Defined.

Lemma create_index_other (c : CollName) (field : string) (unique : bool)
    (c0 : CollName) (w : World) :
  c0 ≠ c → coll c0 (exec (create_index c field unique) w) = coll c0 w.
Proof.
  intros Hne.
  destruct (create_index_cases c field unique w) as [Hsame | (_ & Hother)]; auto.
Qed.

(** A unique index that was not there is only created over documents that
    do not share a value of the field. *)
Lemma create_index_checks (c : CollName) (field : string) (w : World) :
  index_flag c field w = None →
  result (create_index c field true) w = Return () →
  NoDup (map (λ d, field_of d field) (docs (coll c w))).
Proof.
  unfold index_flag.
  destruct c; open_world w; try discriminate;
    (destruct (List.find _ _) as [ix|] eqn:Hfind; [discriminate|]; intros _;
     run_module;
     destruct (has_duplicates _ _) eqn:Hdup; [discriminate|]; intros _;
     unfold has_duplicates in Hdup; apply negb_false_iff in Hdup;
     by apply bool_decide_eq_true in Hdup).
Qed.

(** X14. When [init_db] returns and the unique indexes were not there
    before, it has checked the stored keys: from then on, over any sequence
    of calls of the module, the songs have a unique index on [youtube_id]
    and pairwise different [youtube_id]s, and the videos likewise on
    [video_id]. *)
Theorem init_db_establishes_unique_keys (w : World) (mongo_url db_name : option string)
    (ops : list Op) :
  index_flag COL_SONGS "youtube_id" w = None →
  index_flag COL_VIDEOS "video_id" w = None →
  result (init_db mongo_url db_name) w = Return () →
  let w' := run_ops ops (exec (init_db mongo_url db_name) w) in
  keys_unique COL_SONGS "youtube_id" w' ∧ keys_unique COL_VIDEOS "video_id" w'.
Proof.
  intros Hns Hnv Hret w'.
  destruct (init_db_indexes w mongo_url db_name Hret)
    as (_ & _ & _ & _ & Hs & Hv & Hds & Hdv).
  assert (NoDup (map (λ d, field_of d "youtube_id") (docs (mango_songs w)))
          ∧ NoDup (map (λ d, field_of d "video_id") (docs (mango_videos w))))
    as [Hnds Hndv].
  { revert Hret. unfold result. rewrite init_db_split.
    destruct (init_db_prepared_store mongo_url db_name w) as (Es & Ev & _).
    assert (index_flag COL_SONGS "youtube_id" (init_db_prepared mongo_url db_name w)
            = None) as Hns' by (unfold index_flag in *; cbn [coll] in *; by rewrite Es).
    assert (index_flag COL_VIDEOS "video_id" (init_db_prepared mongo_url db_name w)
            = None) as Hnv' by (unfold index_flag in *; cbn [coll] in *; by rewrite Ev).
    rewrite <- Es, <- Ev. revert Hns' Hnv'.
    generalize (init_db_prepared mongo_url db_name w). clear. intros p Hns Hnv Hret.
    fold (result index_setup p) in Hret. unfold index_setup in Hret.
    apply bind_returns in Hret as ([] & H1 & Hret & _).
    apply bind_returns in Hret as ([] & H2 & _ & _).
    split.
    - exact (create_index_checks COL_SONGS "youtube_id" p Hns H1).
    - assert (coll COL_VIDEOS (exec (create_index COL_SONGS "youtube_id" true) p)
              = coll COL_VIDEOS p) as E by (by apply create_index_other).
      cbn [coll] in E. rewrite <- E.
      apply (create_index_checks COL_VIDEOS "video_id"); [|exact H2].
      unfold index_flag in *. cbn [coll] in *. by rewrite E. }
  subst w'. split; apply unique_keys_hold; (split; [done|]); cbn [coll].
  - by rewrite Hds.
  - by rewrite Hdv.
Qed.

Lemma init_db_establishes_unique_keys_witness :
  keys_unique COL_SONGS "youtube_id"
              (run_ops session (exec (init_db None None) unindexed_world))
  ∧ keys_unique COL_VIDEOS "video_id"
                (run_ops session (exec (init_db None None) unindexed_world)).
Proof.
  apply (init_db_establishes_unique_keys unindexed_world None None session
           eq_refl eq_refl eq_refl).
Defined.

Lemma bind_ok {A B} (m : M A) (f : A → M B) (w : World) (a : A) :
  result m w = Return a →
  result (m ≫= f) w = result (f a) (exec m w)
  ∧ exec (m ≫= f) w = exec (f a) (exec m w).
Proof.
  unfold result, exec. cbv beta iota delta [mbind M_bind].
  destruct (m w) as [[a'|e] w1]; [|discriminate]. by intros [= ->].
Qed.

(** An index that is there with the flag asked for: the call is answered
    and changes nothing. *)
Lemma create_index_noop (c : CollName) (field : string) (unique : bool) (w : World) :
  call_ok 0 w →
  index_flag c field w = Some unique →
  result (create_index c field unique) w = Return ()
  ∧ mango_songs (exec (create_index c field unique) w) = mango_songs w
  ∧ mango_videos (exec (create_index c field unique) w) = mango_videos w
  ∧ faults (exec (create_index c field unique) w) = drop 1 (faults w).
Proof.
  unfold index_flag. intros Hok.
  destruct c; open_world w; try discriminate Hok;
    (destruct (List.find _ _) as [ix|] eqn:Hfind; [|discriminate];
     intros [= Hu]; run_module;
     rewrite (bool_decide_eq_true_2 _ Hu); done).
Qed.

Lemma index_flag_same (c : CollName) (field : string) (w w' : World) :
  mango_songs w' = mango_songs w → mango_videos w' = mango_videos w →
  index_flag c field w' = index_flag c field w.
Proof. unfold index_flag. intros Hs Hv. destruct c; cbn [coll]; by rewrite ?Hs, ?Hv. Qed.

Lemma healthy_drop (n : nat) (w w' : World) :
  faults w' = drop n (faults w) → healthy w → healthy w'.
Proof. intros Hf Hw m. apply (call_ok_drop n m w w' Hf), Hw. Qed.

(** X15. [init_db] can be called again.  After a call that returned, on a
    store that answers, a further call, with any arguments, returns too and
    leaves both collections, documents and indexes, as they are. *)
Theorem init_db_again (w : World) (mongo_url db_name again_url again_name : option string) :
  result (init_db mongo_url db_name) w = Return () →
  let w' := exec (init_db mongo_url db_name) w in
  healthy w' →
  result (init_db again_url again_name) w' = Return ()
  ∧ mango_songs (exec (init_db again_url again_name) w') = mango_songs w'
  ∧ mango_videos (exec (init_db again_url again_name) w') = mango_videos w'.
Proof.
  intros Hret w' Hh.
  destruct (init_db_indexes w mongo_url db_name Hret) as (F1 & F2 & F3 & F4 & _).
  fold w' in F1, F2, F3, F4. clearbody w'. clear Hret w mongo_url db_name.
  unfold result, exec. rewrite init_db_split.
  destruct (init_db_prepared_store again_url again_name w') as (Es & Ev & Ef).
  set (p := init_db_prepared again_url again_name w') in *.
  rewrite <- Es, <- Ev.
  rewrite <- (index_flag_same _ _ w' p Es Ev) in F1.
  rewrite <- (index_flag_same _ _ w' p Es Ev) in F2.
  rewrite <- (index_flag_same _ _ w' p Es Ev) in F3.
  rewrite <- (index_flag_same _ _ w' p Es Ev) in F4.
  assert (healthy p) as Hp by (apply (healthy_drop 0 w'); [by rewrite Ef | done]).
  clearbody p. clear Es Ev Ef Hh w'.
  fold (result index_setup p). fold (exec index_setup p). unfold index_setup.
  destruct (create_index_noop COL_SONGS "youtube_id" true p (Hp 0%nat) F1)
    as (R1 & S1 & V1 & D1).
  destruct (bind_ok (create_index COL_SONGS "youtube_id" true)
              (λ _, create_index COL_VIDEOS "video_id" true ≫= λ _,
                    create_index COL_SONGS "title" false ≫= λ _,
                    create_index COL_VIDEOS "title" false) p () R1) as [-> ->].
  set (p1 := exec (create_index COL_SONGS "youtube_id" true) p) in *.
  rewrite <- (index_flag_same _ _ p p1 S1 V1) in F2.
  rewrite <- (index_flag_same _ _ p p1 S1 V1) in F3.
  rewrite <- (index_flag_same _ _ p p1 S1 V1) in F4.
  pose proof (healthy_drop 1 p p1 D1 Hp) as Hp1.
  destruct (create_index_noop COL_VIDEOS "video_id" true p1 (Hp1 0%nat) F2)
    as (R2 & S2 & V2 & D2).
  destruct (bind_ok (create_index COL_VIDEOS "video_id" true)
              (λ _, create_index COL_SONGS "title" false ≫= λ _,
                    create_index COL_VIDEOS "title" false) p1 () R2) as [-> ->].
  set (p2 := exec (create_index COL_VIDEOS "video_id" true) p1) in *.
  rewrite <- (index_flag_same _ _ p1 p2 S2 V2) in F3.
  rewrite <- (index_flag_same _ _ p1 p2 S2 V2) in F4.
  pose proof (healthy_drop 1 p1 p2 D2 Hp1) as Hp2.
  destruct (create_index_noop COL_SONGS "title" false p2 (Hp2 0%nat) F3)
    as (R3 & S3 & V3 & D3).
  destruct (bind_ok (create_index COL_SONGS "title" false)
              (λ _, create_index COL_VIDEOS "title" false) p2 () R3) as [-> ->].
  set (p3 := exec (create_index COL_SONGS "title" false) p2) in *.
  rewrite <- (index_flag_same _ _ p2 p3 S3 V3) in F4.
  pose proof (healthy_drop 1 p2 p3 D3 Hp2) as Hp3.
  destruct (create_index_noop COL_VIDEOS "title" false p3 (Hp3 0%nat) F4)
    as (R4 & S4 & V4 & _).
  split; [exact R4|]. split; congruence.
Qed.

Lemma init_db_again_witness :
  result (init_db (Some "mongodb://other:27017") None)
         (exec (init_db None None) unindexed_world) = Return ()
  ∧ mango_songs (exec (init_db (Some "mongodb://other:27017") None)
                      (exec (init_db None None) unindexed_world))
    = mango_songs (exec (init_db None None) unindexed_world)
  ∧ mango_videos (exec (init_db (Some "mongodb://other:27017") None)
                       (exec (init_db None None) unindexed_world))
    = mango_videos (exec (init_db None None) unindexed_world).
Proof.
  apply (init_db_again unindexed_world None None (Some "mongodb://other:27017") None
           eq_refl).
  intros n. unfold call_ok.
  change (faults _) with (@nil (option Fault)). by rewrite lookup_nil.
Defined.

Lemma bind_raises {A B} (m : M A) (f : A → M B) (w : World) (e : Exn) :
  result m w = Raise e →
  result (m ≫= f) w = Raise e ∧ exec (m ≫= f) w = exec m w.
Proof.
  unfold result, exec. cbv beta iota delta [mbind M_bind].
  destruct (m w) as [[a|e'] w1]; [discriminate|]. by intros [= ->].
Qed.

Lemma create_index_rejects (c : CollName) (field : string) (w : World) :
  call_ok 0 w →
  index_flag c field w = None →
  ¬ NoDup (map (λ d, field_of d field) (docs (coll c w))) →
  result (create_index c field true) w = Raise DuplicateKeyError
  ∧ mango_songs (exec (create_index c field true) w) = mango_songs w
  ∧ mango_videos (exec (create_index c field true) w) = mango_videos w.
Proof.
  unfold index_flag. intros Hok.
  destruct c; open_world w; try discriminate Hok;
    (destruct (List.find _ _) as [ix|] eqn:Hfind; [discriminate|]; intros _ Hdup;
     run_module; unfold has_duplicates;
     rewrite (bool_decide_eq_false_2 _ Hdup); done).
Qed.

(** X16. [init_db] over songs that already share a [youtube_id].  When the
    store answers, has no index on [youtube_id] yet and two stored songs
    have the same [youtube_id], [init_db] raises the duplicate-key error
    at its first step and creates no index at all: both collections are as
    before, so later saves are not checked for duplicates. *)
Theorem init_db_rejects_duplicates (w : World) (mongo_url db_name : option string) :
  call_ok 0 w →
  index_flag COL_SONGS "youtube_id" w = None →
  ¬ NoDup (map (λ d, field_of d "youtube_id") (docs (mango_songs w))) →
  let w' := exec (init_db mongo_url db_name) w in
  result (init_db mongo_url db_name) w = Raise DuplicateKeyError
  ∧ mango_songs w' = mango_songs w
  ∧ mango_videos w' = mango_videos w.
Proof.
  intros Hok Hflag Hdup w'. subst w'. unfold result, exec. rewrite init_db_split.
  destruct (init_db_prepared_store mongo_url db_name w) as (Es & Ev & Ef).
  set (p := init_db_prepared mongo_url db_name w) in *.
  assert (call_ok 0 p) as Hokp by (unfold call_ok; by rewrite Ef).
  rewrite <- (index_flag_same _ _ w p Es Ev) in Hflag.
  rewrite <- Es in Hdup. rewrite <- Es, <- Ev.
  destruct (create_index_rejects COL_SONGS "youtube_id" p Hokp Hflag Hdup)
    as (R & S & V).
  fold (result index_setup p). fold (exec index_setup p). unfold index_setup.
  destruct (bind_raises (create_index COL_SONGS "youtube_id" true)
              (λ _, create_index COL_VIDEOS "video_id" true ≫= λ _,
                    create_index COL_SONGS "title" false ≫= λ _,
                    create_index COL_VIDEOS "title" false) p _ R) as [-> ->].
  done.
Qed.

Lemma init_db_rejects_duplicates_witness :
  result (init_db None None) duplicated_world = Raise DuplicateKeyError
  ∧ mango_songs (exec (init_db None None) duplicated_world)
    = mango_songs duplicated_world
  ∧ mango_videos (exec (init_db None None) duplicated_world)
    = mango_videos duplicated_world.
Proof.
  apply (init_db_rejects_duplicates duplicated_world None None eq_refl eq_refl).
  intros Hnd. apply NoDup_cons in Hnd as [Hnotin _].
  apply Hnotin, list_elem_of_here.
Defined.

(** X17. When the insert fails and the re-read fails too, the save raises
    the failure of the re-read; the exception of the insert, whatever it
    was, is lost. *)
Theorem save_raises_reread_failure :
  (∀ (w : World) (yid title thumbnail singer : PyVal) (e : Exn) (f : Fault),
     result (insert_one COL_SONGS (song_doc yid title thumbnail singer (clock w))) w
       = Raise e →
     faults w !! 1%nat = Some (Some f) →
     result (save_song yid title thumbnail singer) w = Raise (StoreFailure f))
  ∧
  (∀ (w : World) (vid title thumbnail singer url : PyVal) (e : Exn) (f : Fault),
     result (insert_one COL_VIDEOS (video_doc vid title thumbnail singer url (clock w))) w
       = Raise e →
     faults w !! 1%nat = Some (Some f) →
     result (save_video vid title thumbnail singer url) w = Raise (StoreFailure f)).
Proof.
  split; intros; revert H H0; open_world w; run_on; intros H H0;
    try discriminate H; try discriminate H0; by injection H0 as ->.
Qed.

Lemma save_raises_reread_failure_witness :
  result (save_song (VStr "abc123") (VStr "Song A") (VStr "") (VStr "Artist X"))
         failing_twice
  = Raise (StoreFailure NetworkTimeout).
Proof.
  apply (proj1 save_raises_reread_failure failing_twice
           (VStr "abc123") (VStr "Song A") (VStr "") (VStr "Artist X")
           (StoreFailure WriteError) NetworkTimeout eq_refl eq_refl).
Defined.

Lemma py_or_cases (raw : Doc) (field k : string) :
  py_or (default VNone (raw !! field)) (VStr k) = VStr k
  ∨ ∃ v, raw !! field = Some v ∧ truthy v = true
         ∧ py_or (default VNone (raw !! field)) (VStr k) = v.
Proof.
  unfold py_or. destruct (raw !! field) as [v|]; cbn; [|by left].
  destruct (truthy v) eqn:Hv; [right; by exists v | by left].
Qed.

(** X18. The record a getter returns carries the key asked for, or else
    the key the callback reported: a value of the raw key field that is true
    in Python's sense. *)
Theorem fetched_record_has_key (w : World) (k : string) (fetch : option Fetcher) (d : Doc) :
  (result (get_track_by_youtube_id k fetch) w = Return (Some d) →
     field_of d "youtube_id" = VStr k
     ∨ ∃ fn raw v, fetch = Some fn ∧ fn k = Return (ODict raw)
                   ∧ raw !! "youtube_id" = Some v ∧ truthy v = true
                   ∧ field_of d "youtube_id" = v)
  ∧
  (result (get_video_by_id_with_cache k fetch) w = Return (Some d) →
     field_of d "video_id" = VStr k
     ∨ ∃ fn raw v, fetch = Some fn ∧ fn k = Return (ODict raw)
                   ∧ raw !! "video_id" = Some v ∧ truthy v = true
                   ∧ field_of d "video_id" = v).
Proof.
  assert (∀ (field : string) (fn : Fetcher) (raw : Doc),
            fetch = Some fn → fn k = Return (ODict raw) →
            field_of d field = py_or (default VNone (raw !! field)) (VStr k) →
            field_of d field = VStr k
            ∨ ∃ fn raw v, fetch = Some fn ∧ fn k = Return (ODict raw)
                          ∧ raw !! field = Some v ∧ truthy v = true
                          ∧ field_of d field = v) as Hkey.
  { intros field fn raw Hf Hfn Hd.
    destruct (py_or_cases raw field k) as [E | (v & Hv & Ht & E)];
      rewrite E in Hd; [by left | right; by exists fn, raw, v]. }
  split; open_world w; try discriminate;
    (destruct (List.find _ _) as [found|] eqn:Hfind; run_module; run_on;
     try (intros H; discriminate H);
     try (intros [= ->]; left; by apply find_matches in Hfind as [_ Hfind]));
    (destruct fetch as [fn|]; run_module; [|discriminate]);
    (destruct (fn k) as [[raw|v]|e'] eqn:Hfn; run_module; run_on;
     intros H; try discriminate H; injection H as H;
     apply (Hkey _ fn raw eq_refl Hfn);
     lazymatch type of H with
     | List.find _ _ = Some _ => by apply find_matches in H as [_ H]
     | _ => subst d; first [exact (song_doc_key _ _ _ _ _ _)
                           | exact (video_doc_key _ _ _ _ _ _ _)]
     end).
Qed.

Lemma fetched_record_has_key_witness :
  field_of stored_song "youtube_id" = VStr "abc123"
  ∨ ∃ fn raw v, Some fetch_full = Some fn ∧ fn "abc123" = Return (ODict raw)
                ∧ raw !! "youtube_id" = Some v ∧ truthy v = true
                ∧ field_of stored_song "youtube_id" = v.
Proof.
  apply (proj1 (fetched_record_has_key stocked_world "abc123" (Some fetch_full)
                  stored_song)).
  reflexivity.
Defined.
